(** * artifacts-builder: the MCP component schema, its renderer, and the RAG store

    A shallow embedding of
      - [src/types/mcp-schema.ts]      (module [Schema]),
      - [src/components/renderer.tsx]  (modules [Renderer] and [Store]; the
        file holds both the renderer and the zustand store),
      - [src/app/api/rag/search/route.ts] (module [SearchRoute]),
    together with the properties of their natural-language specification.

    TypeScript types are erased at run time, so the embedding has two
    layers: the values a running program manipulates ([Js.JsVal]) and the
    records the static types describe ([Schema.MCPUIComponent], ...), with
    explicit functions giving the run-time value of a typed record. *)

From Stdlib Require Import List String Ascii ZArith Bool Arith Lia.
From Stdlib Require Import DecimalString.
Import ListNotations.

Open Scope string_scope.

(* ================================================================= *)
(** ** JavaScript values *)

Module Js.

(** Run-time values.  Numbers are the integers (floating point is not
    modelled; what is said of a number's text holds for the safe integers,
    see [safe_integer]) and strings are byte strings.  Objects are plain
    objects given by their own properties, as association lists; the order
    of the bindings is never observed.  [get] reads own properties: it is
    used for the property names the code writes out, none of which names a
    member of a built-in prototype, and for [length] and indices.  A key
    computed at run time is read with [get_keyed], which also finds what
    every object inherits.  [map], [find] and [join] have their own
    functions. *)
#[warnings="-register-all"] Inductive JsVal : Type :=
| VUndefined
| VNull
| VBool (b : bool)
| VNum (n : Z)
| VStr (s : string)
| VArr (items : list JsVal)
| VObj (fields : list (string * JsVal)).

(** A thrown [Error]; only its [message] is ever read. *)
Record JsError : Type := mkError { message : string }.

(** The completion of an expression that may throw. *)
Inductive Completion (A : Type) : Type :=
| Normal (a : A)
| Throw (e : JsError).
Arguments Normal {A} a.
Arguments Throw {A} e.

Definition bind {A B} (c : Completion A) (k : A -> Completion B) : Completion B :=
  match c with
  | Normal a => k a
  | Throw e => Throw e
  end.

Notation "x <- c ;; k" := (bind c (fun x => k))
  (at level 61, c at next level, right associativity).

(** A [TypeError] raised by the engine, with its [message] as V8 (Node,
    Chrome) words it. *)
Definition typeError (what : string) : JsError := mkError what.

(** [const { k } = v] on [undefined] or [null]; [expr] is the text of the
    right-hand side as the message shows it. *)
Definition cannot_destructure (k expr : string) (v : JsVal) : JsError :=
  typeError ("Cannot destructure property '" ++ k ++ "' of '" ++ expr ++ "' as it is "
             ++ match v with VNull => "null" | _ => "undefined" end ++ ".").

(** [o[k]] on the fields of an object: the first binding of [k]. *)
Fixpoint lookup (k : string) (fields : list (string * JsVal)) : JsVal :=
  match fields with
  | [] => VUndefined
  | (k', v) :: rest => if k' =? k then v else lookup k rest
  end.

(** [o[k] = v] on the fields of an object: an existing property keeps its
    place, a new one goes last. *)
Fixpoint obj_set (k : string) (v : JsVal) (fields : list (string * JsVal))
  : list (string * JsVal) :=
  match fields with
  | [] => [(k, v)]
  | (k', v') :: rest =>
      if k' =? k then (k, v) :: rest else (k', v') :: obj_set k v rest
  end.

(** [Object.fromEntries(entries)]: later entries overwrite earlier ones. *)
Definition Object_fromEntries (entries : list (string * JsVal))
  : list (string * JsVal) :=
  fold_left (fun o kv => obj_set (fst kv) (snd kv) o) entries [].

Definition string_of_nat (n : nat) : string :=
  NilZero.string_of_uint (Nat.to_uint n).

Definition string_of_Z (n : Z) : string :=
  NilZero.string_of_int (Z.to_int n).

Fixpoint chars (s : string) : list JsVal :=
  match s with
  | EmptyString => []
  | String c rest => VStr (String c EmptyString) :: chars rest
  end.

Fixpoint indexed (i : nat) (items : list JsVal) : list (string * JsVal) :=
  match items with
  | [] => []
  | v :: rest => (string_of_nat i, v) :: indexed (S i) rest
  end.

(** The own enumerable properties [{...v}] copies into an object literal. *)
Definition spread (v : JsVal) : list (string * JsVal) :=
  match v with
  | VObj fields => fields
  | VArr items => indexed 0 items
  | VStr s => indexed 0 (chars s)
  | _ => []
  end.

(** [v.k] and [v[k]]: throws on [undefined] and [null]; an array or a
    string has its [length] and its elements under their indices. *)
Definition get (v : JsVal) (k : string) : Completion JsVal :=
  match v with
  | VUndefined =>
      Throw (typeError ("Cannot read properties of undefined (reading '" ++ k ++ "')"))
  | VNull =>
      Throw (typeError ("Cannot read properties of null (reading '" ++ k ++ "')"))
  | VObj fields => Normal (lookup k fields)
  | VArr items =>
      Normal (if k =? "length" then VNum (Z.of_nat (List.length items))
              else lookup k (indexed 0 items))
  | VStr s =>
      Normal (if k =? "length" then VNum (Z.of_nat (String.length s))
              else lookup k (indexed 0 (chars s)))
  | _ => Normal VUndefined
  end.

(** [const { k } = v]: reading [k] from [v], with its own error when [v]
    is [undefined] or [null]; [expr] is the text of the right-hand side. *)
Definition destructure (expr : string) (v : JsVal) (k : string) : Completion JsVal :=
  match v with
  | VUndefined | VNull => Throw (cannot_destructure k expr v)
  | _ => get v k
  end.

(** Truthiness, as [if (v)], [!v], [v && ..] and [v || ..] test it. *)
Definition truthy (v : JsVal) : bool :=
  match v with
  | VUndefined | VNull => false
  | VBool b => b
  | VNum n => negb (n =? 0)%Z
  | VStr s => negb (s =? "")
  | VArr _ | VObj _ => true
  end.

(** [a || b] *)
Definition or_else (a b : JsVal) : JsVal := if truthy a then a else b.


(** [typeof v] *)
Definition typeof (v : JsVal) : string :=
  match v with
  | VUndefined => "undefined"
  | VNull => "object"
  | VBool _ => "boolean"
  | VNum _ => "number"
  | VStr _ => "string"
  | VArr _ | VObj _ => "object"
  end.

(** [xs.includes(x)] on an array of strings. *)
Definition includes (xs : list string) (x : string) : bool :=
  existsb (fun y => y =? x) xs.

(** [Object.hasOwn(o, k)] on the fields of an object. *)
Definition has_own (k : string) (fields : list (string * JsVal)) : bool :=
  existsb (fun kv => fst kv =? k) fields.


(** The first error of a list of completions, or all their values. *)
Fixpoint sequence {A} (cs : list (Completion A)) : Completion (list A) :=
  match cs with
  | [] => Normal []
  | c :: rest =>
      x <- c;;
      xs <- sequence rest;;
      Normal (x :: xs)
  end.

(** [String(v)].  An array joins the texts of its elements ([undefined]
    and [null] give the empty text).  An object prints through the
    [toString] it inherits, unless it has a property of its own under that
    name: a data value there is not callable, and the conversion throws.
    A number's text is exact for the safe integers. *)
Fixpoint String_ (v : JsVal) : Completion string :=
  match v with
  | VUndefined => Normal "undefined"
  | VNull => Normal "null"
  | VBool true => Normal "true"
  | VBool false => Normal "false"
  | VNum n => Normal (string_of_Z n)
  | VStr s => Normal s
  | VArr items =>
      let piece (x : JsVal) : Completion string :=
        match x with
        | VUndefined | VNull => Normal ""
        | _ => String_ x
        end in
      pieces <- sequence (map piece items);;
      Normal (String.concat "," pieces)
  | VObj fields =>
      if has_own "toString" fields
      then Throw (typeError "Cannot convert object to primitive value")
      else Normal "[object Object]"
  end.


(** *** Numbers from text *)

(** [StrWhiteSpaceChar], as UTF-8 bytes: tab, line feed, vertical tab, form
    feed, carriage return, space; U+00A0; U+1680, U+2000 to U+200A, U+2028,
    U+2029, U+202F, U+205F, U+3000 and U+FEFF. *)
Definition white1 (c : ascii) : bool :=
  let n := nat_of_ascii c in
  ((9 <=? n) && (n <=? 13) || (n =? 32))%nat.

Definition white2 (c1 c2 : ascii) : bool :=
  ((nat_of_ascii c1 =? 194) && (nat_of_ascii c2 =? 160))%nat.

Definition white3 (c1 c2 c3 : ascii) : bool :=
  let n1 := nat_of_ascii c1 in
  let n2 := nat_of_ascii c2 in
  let n3 := nat_of_ascii c3 in
  ((n1 =? 225) && (n2 =? 154) && (n3 =? 128)
   || (n1 =? 226) && (n2 =? 128)
      && ((128 <=? n3) && (n3 <=? 138) || (n3 =? 168) || (n3 =? 169) || (n3 =? 175))
   || (n1 =? 226) && (n2 =? 129) && (n3 =? 159)
   || (n1 =? 227) && (n2 =? 128) && (n3 =? 128)
   || (n1 =? 239) && (n2 =? 187) && (n3 =? 191))%nat.

(** [s] without the white space it starts with. *)
Fixpoint skip_white (s : string) : string :=
  match s with
  | EmptyString => s
  | String c1 rest1 =>
      if white1 c1 then skip_white rest1
      else
        match rest1 with
        | EmptyString => s
        | String c2 rest2 =>
            if white2 c1 c2 then skip_white rest2
            else
              match rest2 with
              | EmptyString => s
              | String c3 rest3 =>
                  if white3 c1 c2 c3 then skip_white rest3 else s
              end
        end
  end.

Definition blank (s : string) : bool := skip_white s =? "".

(** What follows the prefix [p] in [s], when [s] starts with it. *)
Fixpoint after (p s : string) : option string :=
  match p, s with
  | EmptyString, _ => Some s
  | String a p', String b s' => if (a =? b)%char then after p' s' else None
  | String _ _, EmptyString => None
  end.

(** A digit of the base, at most sixteen. *)
Definition digit (base : Z) (c : ascii) : option Z :=
  let n := Z.of_nat (nat_of_ascii c) in
  let d := (if (48 <=? n) && (n <=? 57) then n - 48
            else if (97 <=? n) && (n <=? 102) then n - 87
            else if (65 <=? n) && (n <=? 70) then n - 55
            else 16)%Z in
  if (d <? base)%Z then Some d else None.

(** The digits [s] starts with, added to [value] and [count], and what
    follows them. *)
Fixpoint digits (base : Z) (s : string) (value count : Z) : Z * Z * string :=
  match s with
  | EmptyString => (value, count, s)
  | String c rest =>
      match digit base c with
      | Some d => digits base rest (value * base + d)%Z (count + 1)%Z
      | None => (value, count, s)
      end
  end.

(** Whether [mantissa / 10 ^ places], rounded to the nearest double, is
    above zero: whether it exceeds half the least positive double, which
    is [2 ^ -1074]. *)
Definition rounds_above_zero (mantissa places : Z) : bool :=
  if (places <=? 0)%Z then (0 <? mantissa)%Z
  else (10 ^ places <? mantissa * 2 ^ 1075)%Z.

(** [0x], [0o] and [0b] literals followed by white space: whether the
    number is above zero. *)
Definition radix_positive (s : string) : option bool :=
  match s with
  | String "0"%char (String c rest) =>
      let base := (if (c =? "x")%char || (c =? "X")%char then 16
                   else if (c =? "o")%char || (c =? "O")%char then 8
                   else if (c =? "b")%char || (c =? "B")%char then 2
                   else 0)%Z in
      let '(value, count, rest') := digits base rest 0%Z 0%Z in
      if (0 <? count)%Z && blank rest' then Some (0 <? value)%Z else None
  | _ => None
  end.

(** An unsigned decimal literal followed by white space ([Infinity], or
    digits with an optional fraction and exponent, one digit at least
    before the exponent): whether the number is above zero. *)
Definition decimal_positive (s : string) : option bool :=
  match after "Infinity" s with
  | Some rest => if blank rest then Some true else None
  | None =>
      let '(whole, whole_count, s1) := digits 10 s 0%Z 0%Z in
      let '(mantissa, places, s2) :=
        match s1 with
        | String "."%char fraction => digits 10 fraction whole 0%Z
        | _ => (whole, 0%Z, s1)
        end in
      let '(exponent, s3) :=
        match s2 with
        | String c signed =>
            if (c =? "e")%char || (c =? "E")%char then
              let '(sign, unsigned) :=
                match signed with
                | String "-"%char r => ((-1)%Z, r)
                | String "+"%char r => (1%Z, r)
                | _ => (1%Z, signed)
                end in
              let '(e, count, r) := digits 10 unsigned 0%Z 0%Z in
              if (0 <? count)%Z then ((sign * e)%Z, r) else (0%Z, s2)
            else (0%Z, s2)
        | EmptyString => (0%Z, s2)
        end in
      if (0 <? whole_count + places)%Z && blank s3
      then Some (rounds_above_zero mantissa (places - exponent))
      else None
  end.

(** [Number(s) > 0] for a string: white space around the literal is
    dropped; a text that is no numeric literal gives [NaN], the empty text
    zero, and a literal with a minus sign nothing above zero. *)
Definition text_positive (s : string) : bool :=
  let s := skip_white s in
  match radix_positive s with
  | Some b => b
  | None =>
      let unsigned :=
        match s with
        | String "+"%char r => r
        | _ => s
        end in
      match decimal_positive unsigned with
      | Some b => b
      | None => false
      end
  end.

(** What reading a property gives: a data value, or one of the members
    every object inherits from [Object.prototype] (a built-in function, or,
    under [__proto__], the prototype itself). *)
Inductive Property : Type :=
| Data (v : JsVal)
| NativeFunction (name : string)
| ObjectPrototype.

(** The members of [Object.prototype]. *)
Definition Object_prototype (k : string) : option Property :=
  if k =? "constructor" then Some (NativeFunction "Object")
  else if k =? "__proto__" then Some ObjectPrototype
  else if includes
            ["hasOwnProperty"; "isPrototypeOf"; "propertyIsEnumerable";
             "toLocaleString"; "toString"; "valueOf";
             "__defineGetter__"; "__defineSetter__";
             "__lookupGetter__"; "__lookupSetter__"] k
       then Some (NativeFunction k)
  else None.

(** [v[k]] for a key computed at run time.  An object gives its own
    property first, then what [Object.prototype] has under the key.  For
    the other kinds of value the members of their prototypes are not
    modelled: they give what [get] gives. *)
Definition get_computed (v : JsVal) (k : string) : Completion Property :=
  match v with
  | VObj fields =>
      Normal (if has_own k fields then Data (lookup k fields)
              else match Object_prototype k with
                   | Some inherited => inherited
                   | None => Data VUndefined
                   end)
  | _ => x <- get v k;; Normal (Data x)
  end.

(** How the message of a failed read names the key (V8): a primitive key
    by its text, a plain object by its constructor, and a key whose name
    cannot be told without running code not at all. *)
Definition key_in_message (k : JsVal) : option string :=
  match k with
  | VUndefined => Some "undefined"
  | VNull => Some "null"
  | VBool true => Some "true"
  | VBool false => Some "false"
  | VNum n => Some (string_of_Z n)
  | VStr s => Some s
  | VArr _ => None
  | VObj fields =>
      if has_own "toString" fields || has_own "constructor" fields then None
      else Some "#<Object>"
  end.

(** [v[k]] where [k] is any value.  [undefined] and [null] have no
    properties, which is found before the key is made a property name;
    otherwise the key is converted with [String_] and read with
    [get_computed]. *)
Definition get_keyed (v k : JsVal) : Completion Property :=
  match v with
  | VUndefined | VNull =>
      Throw (typeError
               ("Cannot read properties of "
                ++ match v with VNull => "null" | _ => "undefined" end
                ++ match key_in_message k with
                   | Some name => " (reading '" ++ name ++ "')"
                   | None => ""
                   end))
  | _ =>
      name <- String_ k;;
      get_computed v name
  end.

(** [p ?? d] *)
Definition nullish_property (p : Property) (d : JsVal) : Property :=
  match p with
  | Data VUndefined | Data VNull => Data d
  | _ => p
  end.

(** [String(p)]; a built-in function prints as V8 prints it (engines
    differ in the white space). *)
Definition String_property (p : Property) : Completion string :=
  match p with
  | Data v => String_ v
  | NativeFunction name => Normal ("function " ++ name ++ "() { [native code] }")
  | ObjectPrototype => Normal "[object Object]"
  end.

End Js.

Import Js.

(* ================================================================= *)
(** ** src/types/mcp-schema.ts *)

Module Schema.

(** [ShadcnComponentType]: the supported component kinds. *)
Inductive ShadcnComponentType : Type :=
| button | card | data_table | dialog | form | input | chart | alert
| badge | toast.

(** The string literal each kind is at run time. *)
Definition kind_name (t : ShadcnComponentType) : string :=
  match t with
  | button => "button"
  | card => "card"
  | data_table => "data-table"
  | dialog => "dialog"
  | form => "form"
  | input => "input"
  | chart => "chart"
  | alert => "alert"
  | badge => "badge"
  | toast => "toast"
  end.

Inductive ComponentVariant : Type :=
| default | destructive | outline | secondary | ghost | link.

Definition variant_name (v : ComponentVariant) : string :=
  match v with
  | default => "default"
  | destructive => "destructive"
  | outline => "outline"
  | secondary => "secondary"
  | ghost => "ghost"
  | link => "link"
  end.

(** [MCPUIAction] *)
Record MCPUIAction : Type := mkAction {
  event : string;
  tool : string;
  params : JsVal
}.

(** [MCPUIComponent].  [type] is a string: the validator exists because a
    tool-generated component may carry a kind outside
    [ShadcnComponentType]; likewise [props] may be missing
    ([VUndefined]). *)
#[warnings="-register-all"] Inductive MCPUIComponent : Type := mkComponent {
  type : string;
  props : JsVal;
  variant : option ComponentVariant;
  children : option (list MCPUIComponent);
  actions : option (list MCPUIAction)
}.

(** [DataTableColumn] *)
Record DataTableColumn : Type := mkColumn {
  key : string;
  header : string;
  col_type : option string;
  sortable : option bool;
  width : option string
}.

(** The [options] argument of [createMCPComponent]. *)
Record ComponentOptions : Type := mkOptions {
  opt_variant : option ComponentVariant;
  opt_children : option (list MCPUIComponent);
  opt_actions : option (list MCPUIAction)
}.

(** [Partial<DataTableProps>], as far as [createDataTable] reads it. *)
Record DataTableOptions : Type := mkDataTableOptions {
  pagination : option bool;
  pageSize : option Z;
  searchable : option bool;
  searchColumn : option string
}.

(** [Partial<CardProps>], as far as [createCard] reads it. *)
Record CardOptions : Type := mkCardOptions {
  description : option string;
  footer : option (string + MCPUIComponent)
}.

(** *** Typed records as run-time values *)

Definition opt_value {A} (f : A -> JsVal) (o : option A) : JsVal :=
  match o with
  | Some a => f a
  | None => VUndefined
  end.

Definition action_value (a : MCPUIAction) : JsVal :=
  VObj [("event", VStr (event a)); ("tool", VStr (tool a)); ("params", params a)].

Fixpoint component_value (c : MCPUIComponent) : JsVal :=
  VObj [("type", VStr (type c));
        ("props", props c);
        ("variant", opt_value (fun v => VStr (variant_name v)) (variant c));
        ("children",
          match children c with
          | Some cs => VArr (map component_value cs)
          | None => VUndefined
          end);
        ("actions", opt_value (fun l => VArr (map action_value l)) (actions c))].

Definition column_value (col : DataTableColumn) : JsVal :=
  VObj [("key", VStr (key col));
        ("header", VStr (header col));
        ("type", opt_value VStr (col_type col));
        ("sortable", opt_value VBool (sortable col));
        ("width", opt_value VStr (width col))].

(** [string | MCPUIComponent] *)
Definition content_value (c : string + MCPUIComponent) : JsVal :=
  match c with
  | inl s => VStr s
  | inr comp => component_value comp
  end.

(** *** Factory helpers *)

(** [options?.f] *)
Definition opt_field {O A} (options : option O) (f : O -> option A) : option A :=
  match options with
  | Some o => f o
  | None => None
  end.

Definition createMCPComponent (t : ShadcnComponentType) (p : JsVal)
    (options : option ComponentOptions) : MCPUIComponent :=
  {| type := kind_name t;
     props := p;
     variant := opt_field options opt_variant;
     children := opt_field options opt_children;
     actions := opt_field options opt_actions |}.

Definition createDataTable (columns : list DataTableColumn)
    (data : list (list (string * JsVal)))
    (options : option DataTableOptions) : MCPUIComponent :=
  createMCPComponent data_table
    (VObj [("columns", VArr (map column_value columns));
           ("data", VArr (map VObj data));
           ("pagination", VBool (match opt_field options pagination with
                                 | Some b => b
                                 | None => true
                                 end));
           ("pageSize", VNum (match opt_field options pageSize with
                              | Some n => n
                              | None => 10%Z
                              end));
           ("searchable", VBool (match opt_field options searchable with
                                 | Some b => b
                                 | None => false
                                 end));
           ("searchColumn", opt_value VStr (opt_field options searchColumn))])
    None.

Definition createCard (title : string) (content : string + MCPUIComponent)
    (options : option CardOptions) : MCPUIComponent :=
  createMCPComponent card
    (VObj [("title", VStr title);
           ("content", content_value content);
           ("description", opt_value VStr (opt_field options description));
           ("footer", opt_value content_value (opt_field options footer))])
    None.

(** *** Validation *)

Record ValidationResult : Type := mkValidation {
  valid : bool;
  errors : list string
}.

Definition validTypes : list string :=
  ["button"; "card"; "data-table"; "dialog"; "form"; "input"; "chart";
   "alert"; "badge"; "toast"].

Definition invalid_type_prefix : string := "無效的組件類型: ".
Definition missing_props : string := "缺少 props".

Fixpoint validateMCPComponent (component : MCPUIComponent) : ValidationResult :=
  let errors0 : list string := [] in
  let errors1 :=
    if negb (includes validTypes (type component))
    then (errors0 ++ [(invalid_type_prefix ++ type component)%string])%list
    else errors0 in
  let errors2 :=
    if negb (truthy (props component))
    then (errors1 ++ [missing_props])%list
    else errors1 in
  let errors3 :=
    match children component with
    | Some cs =>
        fold_left
          (fun errs child => (errs ++ errors (validateMCPComponent child))%list)
          cs errors2
    | None => errors2
    end in
  {| valid := (List.length errors3 =? 0)%nat; errors := errors3 |}.

End Schema.

(* ================================================================= *)
(** ** src/components/renderer.tsx: the renderer *)

Module Renderer.

(** What a component function returns: a JSX element, a literal text
    child, or an [{expression}] child with the value it evaluated to.
    Attributes record the data props ([key] included); event handlers are
    the separate [handleClick] and [handleSubmit] functions below. *)
#[warnings="-register-all"] Inductive Element : Type :=
| Elem (tag : string) (attrs : list (string * JsVal)) (kids : list Element)
| Text (s : string)
| Expr (v : JsVal).

(** What running an event handler does, in order. *)
Inductive Effect : Type :=
| PreventDefault
| Invoke (tool params : JsVal)      (* the caller's [onAction] is called *)
| ConsoleLog (args : list JsVal).

(** A handler run: the effects performed, and the error it threw if any. *)
Record HandlerRun : Type := mkRun {
  trace : list Effect;
  thrown : option JsError
}.

(** Rendering recurses through [props] of unknown shape; [None] is
    running out of fuel. *)
Definition R (A : Type) : Type := option (Completion A).

Definition lift {A} (c : Completion A) : R A := Some c.

Definition bindR {A B} (m : R A) (k : A -> R B) : R B :=
  match m with
  | None => None
  | Some (Throw e) => Some (Throw e)
  | Some (Normal a) => k a
  end.

Notation "x <~ c ;; k" := (bindR c (fun x => k))
  (at level 61, c at next level, right associativity).

(** [a === 'literal'] *)
Definition is_string (a : JsVal) (literal : string) : bool :=
  match a with
  | VStr s => s =? literal
  | _ => false
  end.

(** [xs.map(f)] where [f] may throw; [xs] must be an array. *)
Fixpoint mapM {A} (f : JsVal -> nat -> Completion A) (i : nat) (items : list JsVal)
  : Completion (list A) :=
  match items with
  | [] => Normal []
  | x :: rest =>
      y <- f x i;;
      ys <- mapM f (S i) rest;;
      Normal (y :: ys)
  end.

(** [callee] is the text of the expression whose [map] is called. *)
Definition array_map {A} (callee : string) (xs : JsVal)
    (f : JsVal -> nat -> Completion A) : Completion (list A) :=
  match xs with
  | VArr items => mapM f 0 items
  | VUndefined => Throw (typeError "Cannot read properties of undefined (reading 'map')")
  | VNull => Throw (typeError "Cannot read properties of null (reading 'map')")
  | _ => Throw (typeError (callee ++ ".map is not a function"))
  end.

(** [xs?.find(p)] *)
Fixpoint findM (p : JsVal -> Completion bool) (items : list JsVal)
  : Completion JsVal :=
  match items with
  | [] => Normal VUndefined
  | x :: rest =>
      b <- p x;;
      if b then Normal x else findM p rest
  end.

Definition optional_find (xs : JsVal) (p : JsVal -> Completion bool)
  : Completion JsVal :=
  match xs with
  | VUndefined | VNull => Normal VUndefined
  | VArr items => findM p items
  | _ => Throw (typeError "component.actions?.find is not a function")
  end.

(** [cond && element] as a JSX child. *)
Definition and_then (cond : JsVal) (e : Element) : Element :=
  if truthy cond then e else Expr cond.

(** [handleAction] of [MCPRenderer]; [onAction] tells whether the caller
    supplied the callback. *)
Definition handleAction (onAction : bool) (tool params : JsVal) : list Effect :=
  if onAction then [Invoke tool params]
  else [ConsoleLog [VStr "MCP Action:"; tool; params]].

(** *** MCPButton *)

Definition MCPButton (component : JsVal) : Completion Element :=
  props <- get component "props";;
  v <- get component "variant";;
  let variant := or_else v (VStr "default") in
  size <- get props "size";;
  text <- get props "text";;
  Normal (Elem "Button" [("variant", variant); ("size", size)] [Expr text]).

Definition MCPButton_handleClick (onAction : JsVal -> JsVal -> list Effect)
    (component : JsVal) : HandlerRun :=
  let found :=
    acts <- get component "actions";;
    optional_find acts (fun a => ev <- get a "event";; Normal (is_string ev "click")) in
  match found with
  | Throw e => mkRun [] (Some e)
  | Normal clickAction =>
      if truthy clickAction then
        match (t <- get clickAction "tool";;
               p <- get clickAction "params";;
               Normal (t, p)) with
        | Normal (t, p) => mkRun (onAction t p) None
        | Throw e => mkRun [] (Some e)
        end
      else mkRun [] None
  end.

(** *** MCPCard *)

Definition MCPCard (render : JsVal -> R Element) (component : JsVal) : R Element :=
  props <~ lift (get component "props");;
  title <~ lift (get props "title");;
  description <~ lift (get props "description");;
  content <~ lift (get props "content");;
  contentEl <~ (if typeof content =? "string"
                then lift (Normal (Elem "p" [] [Expr content]))
                else render content);;
  footer <~ lift (get props "footer");;
  footerEl <~ (if truthy footer then
                 inner <~ (if typeof footer =? "string"
                           then lift (Normal (Elem "p" [] [Expr footer]))
                           else render footer);;
                 lift (Normal (Elem "CardFooter" [] [inner]))
               else lift (Normal (Expr footer)));;
  lift (Normal
    (Elem "Card" []
       [Elem "CardHeader" []
          [Elem "CardTitle" [] [Expr title];
           and_then description (Elem "CardDescription" [] [Expr description])];
        Elem "CardContent" [] [contentEl];
        footerEl])).

(** *** MCPDataTable *)

Definition TableHead_of (col : JsVal) (_ : nat) : Completion Element :=
  k <- get col "key";;
  w <- get col "width";;
  h <- get col "header";;
  Normal (Elem "TableHead" [("key", k); ("style", VObj [("width", w)])] [Expr h]).

Definition TableCell_of (row : JsVal) (col : JsVal) (_ : nat) : Completion Element :=
  k <- get col "key";;
  cell <- get_keyed row k;;
  text <- String_property (nullish_property cell (VStr ""));;
  Normal (Elem "TableCell" [("key", k)] [Expr (VStr text)]).

Definition TableRow_of (columns : JsVal) (row : JsVal) (rowIndex : nat)
  : Completion Element :=
  cells <- array_map "props.columns" columns (TableCell_of row);;
  Normal (Elem "TableRow" [("key", VNum (Z.of_nat rowIndex))] cells).

Definition MCPDataTable (component : JsVal) : Completion Element :=
  props <- get component "props";;
  columns <- get props "columns";;
  heads <- array_map "props.columns" columns TableHead_of;;
  data <- get props "data";;
  rows <- array_map "props.data" data (TableRow_of columns);;
  Normal
    (Elem "div" [("className", VStr "rounded-md border")]
       [Elem "Table" []
          [Elem "TableHeader" [] [Elem "TableRow" [] heads];
           Elem "TableBody" [] rows]]).

(** *** MCPDialog *)

Definition MCPDialog (render : JsVal -> R Element) (component : JsVal) : R Element :=
  props <~ lift (get component "props");;
  trigger <~ lift (get props "trigger");;
  triggerEl <~ render trigger;;
  title <~ lift (get props "title");;
  description <~ lift (get props "description");;
  content <~ lift (get props "content");;
  contentEl <~ render content;;
  lift (Normal
    (Elem "Dialog" []
       [Elem "DialogTrigger" [("asChild", VBool true)] [triggerEl];
        Elem "DialogContent" []
          [Elem "DialogHeader" []
             [Elem "DialogTitle" [] [Expr title];
              and_then description (Elem "DialogDescription" [] [Expr description])];
           contentEl]])).

(** *** MCPInput *)

Definition MCPInput (component : JsVal) : Completion Element :=
  props <- get component "props";;
  ty <- get props "type";;
  placeholder <- get props "placeholder";;
  value <- get props "value";;
  Normal (Elem "Input"
            [("type", or_else ty (VStr "text"));
             ("placeholder", placeholder);
             ("defaultValue", value)] []).

(** *** MCPForm *)

Definition FormField_of (field : JsVal) (_ : nat) : Completion Element :=
  name <- get field "name";;
  label <- get field "label";;
  required <- get field "required";;
  ty <- get field "type";;
  placeholder <- get field "placeholder";;
  Normal
    (Elem "div" [("key", name); ("className", VStr "space-y-2")]
       [Elem "label" [("htmlFor", name); ("className", VStr "text-sm font-medium")]
          [Expr label;
           and_then required
             (Elem "span" [("className", VStr "text-red-500")] [Text "*"])];
        Elem "Input"
          [("id", name); ("name", name); ("type", ty);
           ("placeholder", placeholder); ("required", required)] []]).

Definition MCPForm (component : JsVal) : Completion Element :=
  props <- get component "props";;
  fields <- get props "fields";;
  fieldEls <- array_map "props.fields" fields FormField_of;;
  submitText <- get props "submitText";;
  Normal
    (Elem "form" [("className", VStr "space-y-4")]
       (fieldEls ++
        [Elem "Button" [("type", VStr "submit")]
           [Expr (or_else submitText (VStr "送出"))]])%list).

(** [handleSubmit] of [MCPForm].  [entries] is what
    [new FormData(e.currentTarget).entries()] yields: the form's current
    (name, value) pairs in document order (text values only). *)
Definition MCPForm_handleSubmit (onAction : JsVal -> JsVal -> list Effect)
    (component : JsVal) (entries : list (string * string)) : HandlerRun :=
  let data :=
    Object_fromEntries (map (fun e => (fst e, VStr (snd e))) entries) in
  match (props <- get component "props";; get props "onSubmit") with
  | Throw e => mkRun [PreventDefault] (Some e)
  | Normal onSubmit =>
      if truthy onSubmit then
        match (t <- get onSubmit "tool";;
               p <- get onSubmit "params";;
               Normal (t, p)) with
        | Normal (t, p) =>
            mkRun (PreventDefault ::
                   onAction t (VObj (obj_set "formData" (VObj data) (spread p))))
                  None
        | Throw e => mkRun [PreventDefault] (Some e)
        end
      else mkRun [PreventDefault] None
  end.

(** *** MCPRenderer: the entry point *)

Definition unknown_type_prefix : string := "未知組件類型: ".

Definition unknown_placeholder (ty : JsVal) : Element :=
  Elem "div" [("className", VStr "text-red-500")]
    [Text unknown_type_prefix; Expr ty].

Fixpoint MCPRenderer (fuel : nat) (component : JsVal) : R Element :=
  match fuel with
  | O => None
  | S fuel' =>
      ty <~ lift (get component "type");;
      if is_string ty "button" then lift (MCPButton component)
      else if is_string ty "card" then MCPCard (MCPRenderer fuel') component
      else if is_string ty "data-table" then lift (MCPDataTable component)
      else if is_string ty "dialog" then MCPDialog (MCPRenderer fuel') component
      else if is_string ty "input" then lift (MCPInput component)
      else if is_string ty "form" then lift (MCPForm component)
      else lift (Normal (unknown_placeholder ty))
  end.

(** *** Reading a rendered table *)







(** [xs.map((x, i) => f(x, i))] when [f] does not throw. *)
Fixpoint indexed_map {A B} (f : A -> nat -> B) (i : nat) (xs : list A) : list B :=
  match xs with
  | [] => []
  | x :: rest => f x i :: indexed_map f (S i) rest
  end.



(** How deep a value nests; rendering a value needs no more fuel. *)
Fixpoint depth (v : JsVal) : nat :=
  match v with
  | VArr items => S (fold_right (fun x acc => Nat.max (depth x) acc) 0 items)
  | VObj fields =>
      S (fold_right (fun kv acc => Nat.max (depth (snd kv)) acc) 0 fields)
  | _ => 0
  end.

End Renderer.

(* ================================================================= *)
(** ** Talking to other services *)

Module Http.

(** A [fetch] response, as far as its readers go: the status and what
    [response.json()] completes with. *)
Record Response : Type := mkResponse {
  status : Z;
  json : Completion JsVal
}.

(** [response.ok] *)
Definition ok (r : Response) : bool :=
  ((200 <=? status r) && (status r <=? 299))%Z.

(** How an awaited [fetch] settles. *)
Inductive FetchOutcome : Type :=
| Rejected (e : JsError)
| Responded (r : Response).

(** [NextResponse.json(body, { status })]; the status defaults to 200. *)
Definition NextResponse_json (body : JsVal) (st : option Z) : Response :=
  {| status := match st with Some s => s | None => 200%Z end;
     json := Normal body |}.

End Http.

(* ================================================================= *)
(** ** src/app/api/rag/search/route.ts *)

Module SearchRoute.
Import Http.

(** How the embedding server answers [POST /api/embed]. *)
Inductive OllamaReply : Type :=
| Unreachable (e : JsError)                 (* fetch rejects *)
| NotOk (errorText : string)                (* !response.ok, with response.text() *)
| Answered (result : Completion JsVal).     (* response.json() *)

(** What an awaited [supabase.rpc] resolves to: [{ data, error }]. *)
Record RpcResult : Type := mkRpc {
  data : JsVal;
  error : option JsError
}.

(** [v > 0].  The left side is made a number: [undefined] gives [NaN],
    [null] zero, a boolean one or zero, a string the number it spells; an
    array or an object goes through its text first, which throws when the
    text cannot be had. *)
Definition positive (v : JsVal) : Completion bool :=
  match v with
  | VUndefined | VNull => Normal false
  | VBool b => Normal b
  | VNum n => Normal (0 <? n)%Z
  | VStr s => Normal (text_positive s)
  | VArr _ | VObj _ =>
      s <- String_ v;;
      Normal (text_positive s)
  end.

(** [generateEmbedding]; [ollama] is how the embedding server answers
    for a text. *)
Definition generateEmbedding (ollama : string -> OllamaReply) (text : string)
  : Completion JsVal :=
  match ollama text with
  | Unreachable e => Throw e
  | NotOk errorText => Throw (mkError ("Ollama embedding 失敗: " ++ errorText))
  | Answered parsed =>
      result <- parsed;;
      embeddings <- get result "embeddings";;
      nonempty <- (if truthy embeddings
                   then len <- get embeddings "length";; positive len
                   else Normal false);;
      if nonempty then get embeddings "0"
      else
        embedding <- get result "embedding";;
        if truthy embedding then Normal embedding
        else Throw (mkError "Ollama 返回格式異常")
  end.

(** [embedding.join(',')] *)
Definition join_comma (embedding : JsVal) : Completion string :=
  match embedding with
  | VArr _ => String_ embedding
  | VUndefined =>
      Throw (typeError "Cannot read properties of undefined (reading 'join')")
  | VNull =>
      Throw (typeError "Cannot read properties of null (reading 'join')")
  | _ => Throw (typeError "embedding.join is not a function")
  end.

(** [{ k = d } = body]: the default applies to [undefined] only. *)
Definition with_default (v d : JsVal) : JsVal :=
  match v with
  | VUndefined => d
  | _ => v
  end.

Definition missing_query : Response :=
  NextResponse_json (VObj [("error", VStr "缺少查詢參數")]) (Some 400%Z).

(** [POST].  [body] is what [request.json()] completes with, [rpc] what
    the database function [search_regulations] returns for its
    parameters. *)
Definition POST (body : Completion JsVal) (ollama : string -> OllamaReply)
    (rpc : JsVal -> Completion RpcResult) : Response :=
  let attempt : Completion Response :=
    b <- body;;
    query <- destructure "body" b "query";;
    mc <- destructure "body" b "match_count";;
    let match_count := with_default mc (VNum 5) in
    mt <- destructure "body" b "match_threshold";;
    let match_threshold := with_default mt (VNum 0) in
    doc_type <- destructure "body" b "doc_type";;
    if negb (truthy query) || negb (typeof query =? "string")
    then Normal missing_query
    else
      text <- String_ query;;
      embedding <- generateEmbedding ollama text;;
      joined <- join_comma embedding;;
      let embeddingStr := "[" ++ joined ++ "]" in
      let params :=
        [("query_embedding", VStr embeddingStr);
         ("match_threshold", match_threshold);
         ("match_count", match_count)] in
      let params :=
        if truthy doc_type then obj_set "filter_doc_type" doc_type params
        else params in
      res <- rpc (VObj params);;
      match error res with
      | Some e =>
          Normal (NextResponse_json
                    (VObj [("error", VStr ("資料庫搜尋失敗: " ++ message e))])
                    (Some 500%Z))
      | None =>
          dim <- get embedding "length";;
          Normal (NextResponse_json
                    (VObj [("success", VBool true);
                           ("data", or_else (data res) (VArr []));
                           ("query", query);
                           ("embedding_dimension", dim)])
                    None)
      end in
  match attempt with
  | Normal r => r
  | Throw err => NextResponse_json (VObj [("error", VStr (message err))]) (Some 500%Z)
  end.

End SearchRoute.

(* ================================================================= *)
(** ** src/components/renderer.tsx: the RAG store *)

Module Store.
Import Http.

(** The interfaces [Document] and [Regulation] of [@/lib/supabase] (its
    source is the last part of [route.ts]), as one record.  They share
    [id], [content], [source], [chunk_idx], the optional [embedding] and
    [created_at]; a document has an optional [metadata], a regulation an
    optional [article_no], and a row of the other table leaves that field
    [None].  The store reads [id] only. *)
Record Row : Type := mkRow {
  id : string;
  content : string;
  source : string;
  chunk_idx : Z;
  embedding : option (list Z);
  article_no : option string;
  metadata : option (list (string * JsVal));
  created_at : string
}.

Definition Document : Type := Row.
Definition Regulation : Type := Row.

(** [RagState], the data part. *)
Record RagState : Type := mkState {
  documents : list Document;
  regulations : list Regulation;
  isLoading : bool;
  isSubscribed : bool;
  error : option string;
  searchResults : JsVal;
  lastQuery : option string
}.

Definition initialState : RagState :=
  {| documents := [];
     regulations := [];
     isLoading := false;
     isSubscribed := false;
     error := None;
     searchResults := VArr [];
     lastQuery := None |}.

(** What a [postgres_changes] callback receives. *)
Record Payload : Type := mkPayload {
  eventType : string;
  new : Row;
  old : Row
}.

(** A realtime channel held by the supabase client: its topic, the table
    whose changes it listens to, the callback registered with [.on], and
    whether it is still subscribed. *)
Record RealtimeChannel : Type := mkChannel {
  topic : string;
  table : string;
  callback : Payload -> RagState -> RagState;
  joined : bool
}.

(** Everything [subscribe] and its cleanup touch: the store, the two
    module-level channel references (indices into the client's channels),
    and the client's channels. *)
Record World : Type := mkWorld {
  state : RagState;
  documentChannel : option nat;
  regulationChannel : option nat;
  channels : list RealtimeChannel
}.

(** What an awaited supabase read query gives: it resolves to
    [{ data, error }], or the promise rejects. *)
Inductive QueryOutcome : Type :=
| Resolved (data : option (list Row)) (error : option JsError)
| QueryRejected (e : JsError).

(** *** fetchDocuments, fetchRegulations *)

(** [set({ isLoading: true, error: null })] *)
Definition fetch_begin (s : RagState) : RagState :=
  {| documents := documents s;
     regulations := regulations s;
     isLoading := true;
     isSubscribed := isSubscribed s;
     error := None;
     searchResults := searchResults s;
     lastQuery := lastQuery s |}.

(** [set({ error: (err as Error).message, isLoading: false })] *)
Definition set_failed (err : JsError) (s : RagState) : RagState :=
  {| documents := documents s;
     regulations := regulations s;
     isLoading := false;
     isSubscribed := isSubscribed s;
     error := Some (message err);
     searchResults := searchResults s;
     lastQuery := lastQuery s |}.

(** [data || []] *)
Definition or_empty (data : option (list Row)) : list Row :=
  match data with
  | Some rows => rows
  | None => []
  end.

(** The part of [fetchDocuments] after the [await]. *)
Definition fetchDocuments_settle (o : QueryOutcome) (s : RagState) : RagState :=
  match o with
  | Resolved _ (Some err) => set_failed err s
  | Resolved data None =>
      {| documents := or_empty data;
         regulations := regulations s;
         isLoading := false;
         isSubscribed := isSubscribed s;
         error := error s;
         searchResults := searchResults s;
         lastQuery := lastQuery s |}
  | QueryRejected err => set_failed err s
  end.

Definition fetchRegulations_settle (o : QueryOutcome) (s : RagState) : RagState :=
  match o with
  | Resolved _ (Some err) => set_failed err s
  | Resolved data None =>
      {| documents := documents s;
         regulations := or_empty data;
         isLoading := false;
         isSubscribed := isSubscribed s;
         error := error s;
         searchResults := searchResults s;
         lastQuery := lastQuery s |}
  | QueryRejected err => set_failed err s
  end.

(** A run of the action; [during] is what other events did to the store
    while the query was awaited. *)
Definition fetchDocuments (o : QueryOutcome) (during : RagState -> RagState)
    (s : RagState) : RagState :=
  fetchDocuments_settle o (during (fetch_begin s)).

Definition fetchRegulations (o : QueryOutcome) (during : RagState -> RagState)
    (s : RagState) : RagState :=
  fetchRegulations_settle o (during (fetch_begin s)).

(** Whether the read query failed. *)
Definition failure (o : QueryOutcome) : option JsError :=
  match o with
  | Resolved _ (Some err) => Some err
  | Resolved _ None => None
  | QueryRejected err => Some err
  end.


(** *** searchDocuments *)

(** [set({ isLoading: true, error: null, lastQuery: query })] *)
Definition search_begin (query : string) (s : RagState) : RagState :=
  {| documents := documents s;
     regulations := regulations s;
     isLoading := true;
     isSubscribed := isSubscribed s;
     error := None;
     searchResults := searchResults s;
     lastQuery := Some query |}.

(** The request body [{ query, limit }]; [limit] defaults to 5. *)
Definition search_request (query : string) (limit : option Z) : JsVal :=
  VObj [("query", VStr query);
        ("limit", VNum (match limit with Some n => n | None => 5%Z end))].

(** The part of [searchDocuments] after [await fetch(..)]. *)
Definition searchDocuments_settle (o : FetchOutcome) (s : RagState) : RagState :=
  match o with
  | Rejected err => set_failed err s
  | Responded response =>
      if negb (ok response) then set_failed (mkError "搜尋失敗") s
      else
        match (parsed <- json response;;
               destructure "(intermediate value)" parsed "results") with
        | Throw err => set_failed err s
        | Normal results =>
            {| documents := documents s;
               regulations := regulations s;
               isLoading := false;
               isSubscribed := isSubscribed s;
               error := error s;
               searchResults := results;
               lastQuery := lastQuery s |}
        end
  end.

(** A run of the action against an endpoint that answers the request
    body with [endpoint]. *)
Definition searchDocuments (endpoint : JsVal -> FetchOutcome)
    (query : string) (limit : option Z)
    (during : RagState -> RagState) (s : RagState) : RagState :=
  searchDocuments_settle (endpoint (search_request query limit))
    (during (search_begin query s)).

(** The endpoint the store calls, [/api/rag/search], is the route above. *)
Definition rag_search (ollama : string -> SearchRoute.OllamaReply)
    (rpc : JsVal -> Completion SearchRoute.RpcResult) (body : JsVal) : FetchOutcome :=
  Responded (SearchRoute.POST (Normal body) ollama rpc).

(** *** subscribe *)

Definition set_documents (docs : list Document) (s : RagState) : RagState :=
  {| documents := docs;
     regulations := regulations s;
     isLoading := isLoading s;
     isSubscribed := isSubscribed s;
     error := error s;
     searchResults := searchResults s;
     lastQuery := lastQuery s |}.

Definition set_regulations (regs : list Regulation) (s : RagState) : RagState :=
  {| documents := documents s;
     regulations := regs;
     isLoading := isLoading s;
     isSubscribed := isSubscribed s;
     error := error s;
     searchResults := searchResults s;
     lastQuery := lastQuery s |}.

Definition set_isSubscribed (b : bool) (s : RagState) : RagState :=
  {| documents := documents s;
     regulations := regulations s;
     isLoading := isLoading s;
     isSubscribed := b;
     error := error s;
     searchResults := searchResults s;
     lastQuery := lastQuery s |}.

(** The callback of the [documents-changes] channel. *)
Definition onDocumentsChange (payload : Payload) (state : RagState) : RagState :=
  if eventType payload =? "INSERT" then
    set_documents (new payload :: documents state) state
  else if eventType payload =? "UPDATE" then
    set_documents
      (map (fun doc => if id doc =? id (new payload) then new payload else doc)
           (documents state))
      state
  else if eventType payload =? "DELETE" then
    set_documents
      (filter (fun doc => negb (id doc =? id (old payload))) (documents state))
      state
  else state.

(** The callback of the [regulations-changes] channel. *)
Definition onRegulationsChange (payload : Payload) (state : RagState) : RagState :=
  if eventType payload =? "INSERT" then
    set_regulations (new payload :: regulations state) state
  else if eventType payload =? "UPDATE" then
    set_regulations
      (map (fun reg => if id reg =? id (new payload) then new payload else reg)
           (regulations state))
      state
  else if eventType payload =? "DELETE" then
    set_regulations
      (filter (fun reg => negb (id reg =? id (old payload))) (regulations state))
      state
  else state.

(** [channel.unsubscribe()] on the client's [i]-th channel. *)
Fixpoint unsubscribe (i : nat) (chs : list RealtimeChannel) : list RealtimeChannel :=
  match chs, i with
  | [], _ => []
  | c :: rest, O => mkChannel (topic c) (table c) (callback c) false :: rest
  | c :: rest, S j => c :: unsubscribe j rest
  end.

(** [ref?.unsubscribe()] *)
Definition optional_unsubscribe (ref : option nat) (chs : list RealtimeChannel)
  : list RealtimeChannel :=
  match ref with
  | Some i => unsubscribe i chs
  | None => chs
  end.

(** The cleanup closure [subscribe] returns on its main path. *)
Definition cleanup (w : World) : World :=
  {| state := set_isSubscribed false (state w);
     documentChannel := None;
     regulationChannel := None;
     channels :=
       optional_unsubscribe (regulationChannel w)
         (optional_unsubscribe (documentChannel w) (channels w)) |}.

(** [subscribe]: the world after the call, and the closure returned. *)
Definition subscribe (w : World) : World * (World -> World) :=
  if isSubscribed (state w) then (w, fun w' => w')
  else
    let chs1 :=
      (channels w ++
       [mkChannel "documents-changes" "documents" onDocumentsChange true])%list in
    let chs2 :=
      (chs1 ++
       [mkChannel "regulations-changes" "regulations" onRegulationsChange true])%list in
    ({| state := set_isSubscribed true (state w);
        documentChannel := Some (List.length (channels w));
        regulationChannel := Some (List.length chs1);
        channels := chs2 |},
     cleanup).

(** *** reset *)

Definition reset (s : RagState) : RagState :=
  {| documents := [];
     regulations := [];
     isLoading := false;
     isSubscribed := isSubscribed s;
     error := None;
     searchResults := VArr [];
     lastQuery := None |}.

(** A store action seen from the world: it touches the store only. *)
Definition act (f : RagState -> RagState) (w : World) : World :=
  {| state := f (state w);
     documentChannel := documentChannel w;
     regulationChannel := regulationChannel w;
     channels := channels w |}.

(** The client delivering a change of table [tbl]: every channel still
    subscribed to that table runs its callback. *)
Definition deliver (tbl : string) (payload : Payload) (w : World) : World :=
  act (fun s =>
         fold_left
           (fun acc ch =>
              if joined ch && (table ch =? tbl) then callback ch payload acc
              else acc)
           (channels w) s)
      w.

Definition initialWorld : World :=
  {| state := initialState;
     documentChannel := None;
     regulationChannel := None;
     channels := [] |}.

End Store.

(* ================================================================= *)
(** ** src/app/api/rag/search/route.ts: the update route

    The file also holds the handler of [/api/rag/update], with its own
    [generateEmbedding]. *)

Module UpdateRoute.
Import Http.

(** [generateEmbedding] of the update route: no check of the answer's
    shape, [result.embeddings?.[0] || result.embedding]. *)
Definition generateEmbedding (ollama : JsVal -> SearchRoute.OllamaReply)
    (text : JsVal) : Completion JsVal :=
  match ollama text with
  | SearchRoute.Unreachable e => Throw e
  | SearchRoute.NotOk _ => Throw (mkError "Ollama embedding 失敗")
  | SearchRoute.Answered parsed =>
      result <- parsed;;
      embeddings <- get result "embeddings";;
      first <- (match embeddings with
                | VUndefined | VNull => Normal VUndefined
                | _ => get embeddings "0"
                end);;
      if truthy first then Normal first else get result "embedding"
  end.

Definition missing_parameters : Response :=
  NextResponse_json (VObj [("error", VStr "缺少必要參數 (id, content)")]) (Some 400%Z).

(** [POST].  [update] is what the awaited
    [supabase.from('regulations').update(updateData).eq('id', id)...single()]
    gives for the update data and the id. *)
Definition POST (body : Completion JsVal)
    (ollama : JsVal -> SearchRoute.OllamaReply)
    (update : JsVal -> JsVal -> Completion SearchRoute.RpcResult) : Response :=
  let attempt : Completion Response :=
    b <- body;;
    id <- destructure "body" b "id";;
    content <- destructure "body" b "content";;
    re <- destructure "body" b "regenerate_embedding";;
    let regenerate_embedding := SearchRoute.with_default re (VBool true) in
    if negb (truthy id) || negb (truthy content)
    then Normal missing_parameters
    else
      updateData <-
        (if truthy regenerate_embedding then
           embedding <- generateEmbedding ollama content;;
           joined <- SearchRoute.join_comma embedding;;
           Normal (obj_set "embedding" (VStr ("[" ++ joined ++ "]"))
                           [("content", content)])
         else Normal [("content", content)]);;
      res <- update (VObj updateData) id;;
      match SearchRoute.error res with
      | Some e =>
          Normal (NextResponse_json
                    (VObj [("error", VStr ("更新失敗: " ++ message e))])
                    (Some 500%Z))
      | None =>
          Normal (NextResponse_json
                    (VObj [("success", VBool true);
                           ("data", SearchRoute.data res);
                           ("embedding_regenerated", regenerate_embedding)])
                    None)
      end in
  match attempt with
  | Normal r => r
  | Throw err => NextResponse_json (VObj [("error", VStr (message err))]) (Some 500%Z)
  end.

End UpdateRoute.

(* ================================================================= *)
(** ** src/hooks/use-rag.ts *)

Module Hook.
Import Store.

(** The effect of [useRag]: it subscribes, starts both fetches (each runs
    to its [await]), and returns a cleanup that calls the teardown
    [subscribe] gave. *)
Definition useRag_effect (w : World) : World * (World -> World) :=
  let unsubscribe := snd (subscribe w) in
  let w1 := fst (subscribe w) in
  let w2 := act fetch_begin w1 in
  let w3 := act fetch_begin w2 in
  (w3, fun w' => unsubscribe w').

(** [refresh]: both fetches are started again. *)
Definition refresh (w : World) : World :=
  act fetch_begin (act fetch_begin w).

End Hook.

(* ================================================================= *)
(** ** Typed forms *)

Module Forms.
Import Schema.

(** [FormField] of [src/types/mcp-schema.ts]. *)
Record FormField : Type := mkField {
  name : string;
  label : string;
  field_type : string;
  placeholder : option string;
  required : option bool;
  options : option (list (string * string));
  validation : option JsVal
}.

Definition option_value (o : string * string) : JsVal :=
  VObj [("value", VStr (fst o)); ("label", VStr (snd o))].

(** A typed field as a run-time value. *)
Definition field_value (f : FormField) : JsVal :=
  VObj [("name", VStr (name f));
        ("label", VStr (label f));
        ("type", VStr (field_type f));
        ("placeholder", opt_value VStr (placeholder f));
        ("required", opt_value VBool (required f));
        ("options", opt_value (fun l => VArr (map option_value l)) (options f));
        ("validation", opt_value (fun v => v) (validation f))].

(** [createMCPComponent('form', { fields, submitText, onSubmit })] with
    typed [FormProps]. *)
Definition form_component (fields : list FormField) (submitText : option string)
    (onSubmit : option MCPUIAction) : MCPUIComponent :=
  createMCPComponent form
    (VObj [("fields", VArr (map field_value fields));
           ("submitText", opt_value VStr submitText);
           ("onSubmit", opt_value action_value onSubmit)])
    None.

End Forms.

(* ================================================================= *)
(** ** Scenarios and observations used in the statements *)

Import Schema Renderer Http Store.

(** A tool-generated component of kind "video", with a valid child. *)
Definition video_component : MCPUIComponent :=
  {| type := "video";
     props := VObj [("src", VStr "clip.mp4")];
     variant := None;
     children := Some [createMCPComponent badge (VObj [("text", VStr "new")]) None];
     actions := None |}.

(** The scenario of the specification: one document with id 1, then an
    update for id 2, an insert of id 3, a delete of id 1, and an event of a
    kind the callback does not know. *)
Definition row_of (i c : string) : Row :=
  {| id := i; content := c; source := "manual.pdf"; chunk_idx := 0%Z;
     embedding := None; article_no := None; metadata := None;
     created_at := "2026-01-26" |}.

Definition one_document : RagState :=
  set_documents [row_of "1" "a"] initialState.

(** A search that succeeds end to end: the embedding server returns a
    vector and the database one hit. *)
Definition ollama_answers (_ : string) : SearchRoute.OllamaReply :=
  SearchRoute.Answered
    (Normal (VObj [("embeddings", VArr [VArr [VNum 1; VNum 2; VNum 3]])])).

Definition one_hit : JsVal :=
  VObj [("id", VStr "r1"); ("content", VStr "grounding conductors");
        ("source", VStr "code.pdf"); ("similarity", VNum 1)].

Definition rpc_one_hit (_ : JsVal) : Completion SearchRoute.RpcResult :=
  Normal (SearchRoute.mkRpc (VArr [one_hit]) None).

(** A badge, built by the factory. *)
Definition new_badge : MCPUIComponent :=
  createMCPComponent badge (VObj [("text", VStr "New")]) None.

(** The form of the specification's example: the action's parameters are
    [{a: 1, formData: "ignored"}]. *)
Definition example_form : JsVal :=
  VObj [("type", VStr "form");
        ("props",
          VObj [("fields",
                  VArr [VObj [("name", VStr "x"); ("label", VStr "X");
                              ("type", VStr "text")]]);
                ("onSubmit",
                  VObj [("event", VStr "submit");
                        ("tool", VStr "save");
                        ("params",
                          VObj [("a", VNum 1);
                                ("formData", VStr "ignored")])])])].

(** The same form with no [onSubmit] action. *)
Definition example_form_without_action : JsVal :=
  VObj [("type", VStr "form");
        ("props",
          VObj [("fields",
                  VArr [VObj [("name", VStr "x"); ("label", VStr "X");
                              ("type", VStr "text")]])])].

(** The values of a submitted form as [Object.fromEntries] sees them. *)
Definition entry_values (entries : list (string * string)) : list (string * JsVal) :=
  map (fun e => (fst e, VStr (snd e))) entries.





(** The nodes of a component tree in document order: a parent before its
    children, children from left to right. *)
Fixpoint nodes (c : MCPUIComponent) : list MCPUIComponent :=
  c :: match children c with
       | Some cs => flat_map nodes cs
       | None => []
       end.

(** The errors the validator records for one node on its own. *)
Definition own_errors (c : MCPUIComponent) : list string :=
  ((if includes validTypes (type c) then []
    else [(invalid_type_prefix ++ type c)%string]) ++
   (if truthy (props c) then [] else [missing_props]))%list.

(** What a slot typed [string | MCPUIComponent] renders to: a paragraph for
    a string, the renderer's output for a component. *)
Definition render_slot (render : JsVal -> R Element) (slot : string + MCPUIComponent)
  : R Element :=
  match slot with
  | inl s => Some (Normal (Elem "p" [] [Expr (VStr s)]))
  | inr c => render (component_value c)
  end.

(** Whether a slot is truthy as a value: a string is, unless empty. *)
Definition slot_present (slot : option (string + MCPUIComponent)) : bool :=
  match slot with
  | None => false
  | Some (inl s) => negb (s =? "")
  | Some (inr _) => true
  end.

(** The header [MCPCard] and [MCPDialog] render from a title and an
    optional description. *)
Definition expected_header (tag : string) (title : string) (descr : option string)
  : Element :=
  Elem (tag ++ "Header") []
    [Elem (tag ++ "Title") [] [Expr (VStr title)];
     and_then (opt_value VStr descr)
       (Elem (tag ++ "Description") [] [Expr (opt_value VStr descr)])].

(** The block [MCPForm] renders for a typed field. *)
Definition expected_field_block (f : Forms.FormField) : Element :=
  Elem "div" [("key", VStr (Forms.name f)); ("className", VStr "space-y-2")]
    [Elem "label"
       [("htmlFor", VStr (Forms.name f)); ("className", VStr "text-sm font-medium")]
       [Expr (VStr (Forms.label f));
        and_then (opt_value VBool (Forms.required f))
          (Elem "span" [("className", VStr "text-red-500")] [Text "*"])];
     Elem "Input"
       [("id", VStr (Forms.name f)); ("name", VStr (Forms.name f));
        ("type", VStr (Forms.field_type f));
        ("placeholder", opt_value VStr (Forms.placeholder f));
        ("required", opt_value VBool (Forms.required f))] []].

(** A dialog whose trigger and content are typed components. *)
Definition dialog_component (title : string) (descr : option string)
    (content trigger : MCPUIComponent) : MCPUIComponent :=
  createMCPComponent dialog
    (VObj [("title", VStr title);
           ("description", opt_value VStr descr);
           ("content", component_value content);
           ("trigger", component_value trigger)])
    None.

(** A button with two actions, the second of them for [click]. *)
Definition save_button : MCPUIComponent :=
  createMCPComponent button (VObj [("text", VStr "Save")])
    (Some (mkOptions None None
             (Some [mkAction "change" "track" VNull;
                    mkAction "click" "save" (VObj [("id", VNum 7)]);
                    mkAction "click" "never" VNull]))).

(** A data table whose [props] was lost. *)
Definition table_without_props : MCPUIComponent :=
  mkComponent "data-table" VUndefined None None None.

(** No channel of the client is subscribed. *)
Definition quiet (w : World) : Prop :=
  Forall (fun ch => joined ch = false) (channels w).


(** What a route answers once the database call has been made. *)
Definition after_database (failed_prefix : string) (success : SearchRoute.RpcResult -> JsVal)
    (outcome : Completion SearchRoute.RpcResult) : Response :=
  match outcome with
  | Throw err => NextResponse_json (VObj [("error", VStr (message err))]) (Some 500%Z)
  | Normal res =>
      match SearchRoute.error res with
      | Some e =>
          NextResponse_json
            (VObj [("error", VStr (failed_prefix ++ message e))]) (Some 500%Z)
      | None => NextResponse_json (success res) None
      end
  end.

(** An update request that asks for no new embedding. *)
Definition update_without_embedding : JsVal :=
  VObj [("id", VStr "r1"); ("content", VStr "new text");
        ("regenerate_embedding", VBool false)].

(** An embedding server that is down. *)
Definition ollama_down (_ : JsVal) : SearchRoute.OllamaReply :=
  SearchRoute.Unreachable (mkError "fetch failed").

(** A database that stores every update. *)
Definition update_stored (updateData id : JsVal) : Completion SearchRoute.RpcResult :=
  Normal (SearchRoute.mkRpc (VObj (("id", id) :: spread updateData)) None).

(** A response whose body has no [results] property. *)
Definition results_absent (r : Response) : Prop :=
  (parsed <- json r;; get parsed "results") = Normal VUndefined.

(* ================================================================= *)
(** * Properties *)

(** ** Objects *)

Section ObjectFacts.

Implicit Types (k : string) (v : JsVal) (o : list (string * JsVal)).

(** Where a property can be read, destructuring reads the same. *)
Lemma destructure_get (expr : string) (b x : JsVal) (key : string) :
  get b key = Normal x -> destructure expr b key = Normal x.
Proof.
  destruct b; simpl; intros H; try discriminate; exact H.
Qed.

Lemma bind_destructure_get (expr : string) (c : Completion JsVal) (x : JsVal)
    (key : string) :
  (parsed <- c;; get parsed key) = Normal x ->
  (parsed <- c;; destructure expr parsed key) = Normal x.
Proof.
  destruct c as [parsed | e]; simpl; [apply destructure_get | discriminate].
Qed.

Lemma lookup_obj_set_same k v o : lookup k (obj_set k v o) = v.
Proof.
  induction o as [| [k' v'] rest IH]; simpl.
  - now rewrite String.eqb_refl.
  - destruct (k' =? k) eqn:E; simpl.
    + now rewrite String.eqb_refl.
    + now rewrite E.
Qed.

Lemma lookup_obj_set_other k k0 v o :
  k0 <> k -> lookup k0 (obj_set k v o) = lookup k0 o.
Proof.
  intros Hne.
  induction o as [| [k' v'] rest IH]; simpl.
  - destruct (k =? k0) eqn:E; [apply String.eqb_eq in E; congruence | reflexivity].
  - destruct (k' =? k) eqn:E; simpl.
    + apply String.eqb_eq in E; subst k'.
      destruct (k =? k0) eqn:E0; [apply String.eqb_eq in E0; congruence | reflexivity].
    + destruct (k' =? k0); [reflexivity | exact IH].
Qed.

Lemma keys_obj_set k v o x :
  In x (map fst (obj_set k v o)) <-> x = k \/ In x (map fst o).
Proof.
  induction o as [| [k' v'] rest IH]; simpl.
  - intuition.
  - destruct (k' =? k) eqn:E; simpl.
    + apply String.eqb_eq in E; subst k'. intuition.
    + rewrite IH. intuition.
Qed.

(** The value [Object.fromEntries] keeps for a name is the one of its last
    entry. *)
Lemma lookup_fromEntries_app entries k v :
  lookup k (Object_fromEntries (entries ++ [(k, v)])) = v.
Proof.
  unfold Object_fromEntries. rewrite fold_left_app. simpl.
  apply lookup_obj_set_same.
Qed.

Lemma lookup_fromEntries_skip entries k k0 v :
  k0 <> k ->
  lookup k0 (Object_fromEntries (entries ++ [(k, v)])) =
  lookup k0 (Object_fromEntries entries).
Proof.
  intros Hne. unfold Object_fromEntries. rewrite fold_left_app. simpl.
  now apply lookup_obj_set_other.
Qed.

End ObjectFacts.

(** ** The validator *)

Section ValidatorFacts.

Lemma fold_left_collect {A} (f : A -> list string) (xs : list A) (acc : list string) :
  fold_left (fun errs x => (errs ++ f x)%list) xs acc = (acc ++ flat_map f xs)%list.
Proof.
  revert acc. induction xs as [| x rest IH]; intros acc; simpl.
  - now rewrite app_nil_r.
  - rewrite IH. now rewrite <- app_assoc.
Qed.

(** The errors in document order: the component's own, then those of its
    children from left to right. *)
Lemma validate_errors (component : MCPUIComponent) :
  errors (validateMCPComponent component) =
  ((if includes validTypes (type component) then []
    else [(invalid_type_prefix ++ type component)%string]) ++
   (if truthy (props component) then [] else [missing_props]) ++
   match children component with
   | Some cs => flat_map (fun child => errors (validateMCPComponent child)) cs
   | None => []
   end)%list.
Proof.
  destruct component as [ty pr va ch ac].
  cbn [validateMCPComponent errors type props children negb].
  destruct (includes validTypes ty), (truthy pr), ch as [cs |];
    cbn [negb app]; try rewrite fold_left_collect; reflexivity.
Qed.

Lemma validate_valid (component : MCPUIComponent) :
  valid (validateMCPComponent component) =
  (List.length (errors (validateMCPComponent component)) =? 0)%nat.
Proof. destruct component; reflexivity. Qed.

Lemma includes_In (xs : list string) (x : string) :
  includes xs x = true <-> In x xs.
Proof.
  unfold includes. rewrite existsb_exists. split.
  - intros [y [Hin Heq]]. apply String.eqb_eq in Heq. now subst.
  - intros Hin. exists x. split; [assumption | apply String.eqb_refl].
Qed.

(** [validTypes] is the closed enumeration [ShadcnComponentType]. *)
Lemma validTypes_enumeration (s : string) :
  In s validTypes <-> exists t : ShadcnComponentType, kind_name t = s.
Proof.
  split.
  - unfold validTypes. simpl. intros H.
    repeat (destruct H as [H | H];
            [ first [ exists button; exact H | exists card; exact H
                    | exists data_table; exact H | exists dialog; exact H
                    | exists form; exact H | exists input; exact H
                    | exists chart; exact H | exists alert; exact H
                    | exists badge; exact H | exists toast; exact H ] | ]).
    contradiction.
  - intros [t <-]. destruct t; simpl; tauto.
Qed.

End ValidatorFacts.

(** C9. A component whose kind is outside the closed enumeration is
    reported invalid, with an error that is the invalid-kind message
    followed by the offending kind; and for every component [valid] is true
    exactly when the list of errors is empty. *)
Theorem validate_reports_unknown_kind (component : MCPUIComponent) :
  (~ In (type component) validTypes ->
   valid (validateMCPComponent component) = false /\
   In (invalid_type_prefix ++ type component)%string
      (errors (validateMCPComponent component))) /\
  (valid (validateMCPComponent component) = true <->
   errors (validateMCPComponent component) = []).
Proof.
  split.
  - intros Hout.
    assert (Hinc : includes validTypes (type component) = false).
    { destruct (includes validTypes (type component)) eqn:E; [| reflexivity].
      apply includes_In in E. contradiction. }
    rewrite validate_valid, validate_errors, Hinc. simpl. split.
    + reflexivity.
    + now left.
  - rewrite validate_valid.
    destruct (errors (validateMCPComponent component)) as [| e rest]; simpl.
    + split; reflexivity.
    + split; discriminate.
Qed.

Lemma validate_reports_unknown_kind_witness :
  ~ In (type video_component) validTypes /\
  valid (validateMCPComponent video_component) = false /\
  In (invalid_type_prefix ++ "video")%string
     (errors (validateMCPComponent video_component)).
Proof.
  assert (Hout : ~ In (type video_component) validTypes).
  { simpl. intros H. repeat (destruct H as [H | H]; [discriminate H |]). exact H. }
  split; [exact Hout |].
  exact (proj1 (validate_reports_unknown_kind video_component) Hout).
Defined.

(** C10. What [createDataTable] and [createCard] build passes the
    validator: [valid] is true and there are no errors. *)
Theorem factories_build_valid_components :
  (forall columns data options,
      validateMCPComponent (createDataTable columns data options) =
      {| valid := true; errors := [] |}) /\
  (forall title content options,
      validateMCPComponent (createCard title content options) =
      {| valid := true; errors := [] |}).
Proof.
  split; intros; reflexivity.
Qed.

(** ** The store: realtime reconciliation *)

Section ReconcileFacts.

Variable incoming : Row.

(** What the [UPDATE] branch maps over the list. *)
Let replace (doc : Row) : Row :=
  if id doc =? id incoming then incoming else doc.

Lemma map_replace_absent (docs : list Row) :
  (forall doc, In doc docs -> id doc <> id incoming) ->
  map replace docs = docs.
Proof.
  induction docs as [| d rest IH]; intros Habsent; simpl.
  - reflexivity.
  - unfold replace at 1.
    destruct (id d =? id incoming) eqn:E.
    + apply String.eqb_eq in E. exfalso. apply (Habsent d); [now left | exact E].
    + f_equal. apply IH. intros doc Hin. apply Habsent. now right.
Qed.

Lemma nth_error_map_replace (docs : list Row) (i : nat) :
  nth_error (map replace docs) i = option_map replace (nth_error docs i).
Proof. apply nth_error_map. Qed.

End ReconcileFacts.

Lemma filter_other_ids (gone : string) (docs : list Row) (doc : Row) :
  In doc (filter (fun d => negb (id d =? gone)) docs) <->
  In doc docs /\ id doc <> gone.
Proof.
  rewrite filter_In. split; intros [Hin H]; split; try assumption.
  - intros Heq. apply String.eqb_eq in Heq. rewrite Heq in H. discriminate.
  - destruct (id doc =? gone) eqn:E; [| reflexivity].
    apply String.eqb_eq in E. contradiction.
Qed.

(** The callback only ever writes [documents]. *)
Lemma onDocumentsChange_frame (payload : Payload) (s : RagState) :
  onDocumentsChange payload s = set_documents (documents (onDocumentsChange payload s)) s.
Proof.
  unfold onDocumentsChange.
  destruct (eventType payload =? "INSERT"); [reflexivity |].
  destruct (eventType payload =? "UPDATE"); [reflexivity |].
  destruct (eventType payload =? "DELETE"); [reflexivity |].
  destruct s; reflexivity.
Qed.

(** C1. The [documents-changes] callback, by event kind: an insert puts the
    new record first; an update replaces, in place, the entries whose id is
    the changed record's, and changes nothing when no entry has that id (the
    length never changes, so nothing is inserted); a delete removes the
    entries whose id is the removed record's and keeps the others in order;
    any other event kind leaves the state as it is. *)
Theorem realtime_event_reconciles (payload : Payload) (s : RagState) :
  let docs := documents s in
  let docs' := documents (onDocumentsChange payload s) in
  (eventType payload = "INSERT" -> docs' = new payload :: docs) /\
  (eventType payload = "UPDATE" ->
     List.length docs' = List.length docs /\
     (forall i,
         nth_error docs' i =
         option_map (fun doc => if id doc =? id (new payload) then new payload else doc)
                    (nth_error docs i)) /\
     ((forall doc, In doc docs -> id doc <> id (new payload)) -> docs' = docs)) /\
  (eventType payload = "DELETE" ->
     docs' = filter (fun doc => negb (id doc =? id (old payload))) docs /\
     (forall doc, In doc docs' <-> In doc docs /\ id doc <> id (old payload))) /\
  (eventType payload <> "INSERT" -> eventType payload <> "UPDATE" ->
   eventType payload <> "DELETE" -> onDocumentsChange payload s = s).
Proof.
  cbv zeta. unfold onDocumentsChange.
  split; [| split; [| split]].
  - intros ->. reflexivity.
  - intros ->. simpl. split; [apply length_map | split].
    + intros i. apply nth_error_map.
    + apply map_replace_absent.
  - intros ->. simpl. split; [reflexivity |].
    intros doc. apply filter_other_ids.
  - intros Hi Hu Hd.
    apply String.eqb_neq in Hi, Hu, Hd. now rewrite Hi, Hu, Hd.
Qed.

Lemma realtime_event_reconciles_witness :
  let update2 := mkPayload "UPDATE" (row_of "2" "b") (row_of "2" "old") in
  let insert3 := mkPayload "INSERT" (row_of "3" "c") (row_of "" "") in
  let delete1 := mkPayload "DELETE" (row_of "" "") (row_of "1" "a") in
  let truncate := mkPayload "TRUNCATE" (row_of "" "") (row_of "" "") in
  let s1 := onDocumentsChange update2 one_document in
  let s2 := onDocumentsChange insert3 s1 in
  let s3 := onDocumentsChange delete1 s2 in
  documents s1 = [row_of "1" "a"] /\
  documents s2 = [row_of "3" "c"; row_of "1" "a"] /\
  documents s3 = [row_of "3" "c"] /\
  onDocumentsChange truncate s3 = s3.
Proof.
  cbv zeta.
  pose proof (realtime_event_reconciles
                (mkPayload "UPDATE" (row_of "2" "b") (row_of "2" "old"))
                one_document) as H1.
  cbv zeta in H1. destruct H1 as (_ & Hupd & _ & _).
  destruct (Hupd eq_refl) as (_ & _ & Habsent).
  assert (E1 : documents (onDocumentsChange
                            (mkPayload "UPDATE" (row_of "2" "b") (row_of "2" "old"))
                            one_document) = [row_of "1" "a"]).
  { apply Habsent. simpl. intros doc [<- | []]. simpl. discriminate. }
  split; [exact E1 |].
  split; [reflexivity |].
  split; [reflexivity |].
  reflexivity.
Defined.

(** After [subscribe] on a fresh world, a change of the documents table
    reaches the store through [onDocumentsChange], once. *)
Lemma subscribed_world_delivers (payload : Payload) :
  deliver "documents" payload (fst (subscribe initialWorld)) =
  act (onDocumentsChange payload) (fst (subscribe initialWorld)).
Proof. reflexivity. Qed.

(** ** The store: subscribe *)

(** [subscribe] always leaves the store subscribed. *)
Lemma subscribe_sets_isSubscribed (w : World) :
  isSubscribed (state (fst (subscribe w))) = true.
Proof.
  unfold subscribe. destruct (isSubscribed (state w)) eqn:E; simpl.
  - exact E.
  - reflexivity.
Qed.

(** C2. [subscribe] on a store that is already subscribed changes nothing:
    the world after the call is the world before it (so no channel is
    created and both channel references are what they were), the closure
    returned does nothing, and [isSubscribed] is true after the call and
    after running that closure. *)
Theorem subscribe_when_subscribed_is_noop (w : World) :
  isSubscribed (state w) = true ->
  let w' := fst (subscribe w) in
  let teardown := snd (subscribe w) in
  w' = w /\
  channels w' = channels w /\
  documentChannel w' = documentChannel w /\
  regulationChannel w' = regulationChannel w /\
  (forall x, teardown x = x) /\
  isSubscribed (state w') = true /\
  isSubscribed (state (teardown w')) = true.
Proof.
  intros Hsub. unfold subscribe. rewrite Hsub. simpl.
  repeat split; assumption.
Qed.

(** Two calls in a row from a fresh world: the second creates nothing. *)
Lemma subscribe_when_subscribed_is_noop_witness :
  let w1 := fst (subscribe initialWorld) in
  isSubscribed (state w1) = true /\
  fst (subscribe w1) = w1 /\
  List.length (channels (fst (subscribe w1))) = 2 /\
  isSubscribed (state (snd (subscribe w1) (fst (subscribe w1)))) = true.
Proof.
  cbv zeta.
  assert (Hsub : isSubscribed (state (fst (subscribe initialWorld))) = true)
    by reflexivity.
  pose proof (subscribe_when_subscribed_is_noop (fst (subscribe initialWorld)) Hsub) as H.
  cbv zeta in H. destruct H as (Hw & _ & _ & _ & _ & _ & Hstill).
  split; [exact Hsub |].
  split; [exact Hw |].
  split; [rewrite Hw; reflexivity |].
  exact Hstill.
Defined.

(** For any world, a second [subscribe] right after a first is a no-op. *)
Lemma subscribe_twice (w : World) :
  fst (subscribe (fst (subscribe w))) = fst (subscribe w).
Proof.
  unfold subscribe at 1. now rewrite subscribe_sets_isSubscribed.
Qed.

(** ** The store: fetching *)

(** C3. When the read query of [fetchDocuments] fails, the run ends with
    [error] the failure's message and [isLoading] false, and neither of the
    action's two writes touches [documents]: the list is the one the store
    held when the query settled, which is the one from before the fetch
    unless another event changed it meanwhile.  Likewise for
    [fetchRegulations] and [regulations]. *)
Theorem failed_fetch_keeps_list (o : QueryOutcome) (err : JsError)
    (during : RagState -> RagState) (s : RagState) :
  failure o = Some err ->
  (let s' := fetchDocuments o during s in
   error s' = Some (message err) /\
   isLoading s' = false /\
   documents s' = documents (during (fetch_begin s)) /\
   documents (fetch_begin s) = documents s /\
   documents (fetchDocuments o (fun x => x) s) = documents s) /\
  (let s' := fetchRegulations o during s in
   error s' = Some (message err) /\
   isLoading s' = false /\
   regulations s' = regulations (during (fetch_begin s)) /\
   regulations (fetch_begin s) = regulations s /\
   regulations (fetchRegulations o (fun x => x) s) = regulations s).
Proof.
  intros Hfail. cbv zeta.
  unfold fetchDocuments, fetchRegulations.
  destruct o as [data [e |] | e]; simpl in Hfail; try discriminate;
    injection Hfail as ->; simpl; repeat split; reflexivity.
Qed.

Lemma failed_fetch_keeps_list_witness :
  let o := Resolved None (Some (mkError "connection refused")) in
  let s' := fetchDocuments o (fun x => x) one_document in
  failure o = Some (mkError "connection refused") /\
  error s' = Some "connection refused" /\
  isLoading s' = false /\
  documents s' = [row_of "1" "a"].
Proof.
  cbv zeta.
  assert (Hfail : failure (Resolved None (Some (mkError "connection refused")))
                  = Some (mkError "connection refused")) by reflexivity.
  destruct (failed_fetch_keeps_list _ _ (fun x => x) one_document Hfail)
    as [(He & Hl & _ & _ & Hd) _].
  split; [exact Hfail |].
  split; [exact He |].
  split; [exact Hl |].
  exact Hd.
Defined.

(** ** The store: reset *)

(** C5. [reset] puts the three lists and the three scalar fields back to
    their initial values, whatever they held, and leaves [isSubscribed], the
    two channel references and the client's channels as they were. *)
Theorem reset_restores_data_only (w : World) :
  let w' := act reset w in
  documents (state w') = [] /\
  regulations (state w') = [] /\
  searchResults (state w') = VArr [] /\
  isLoading (state w') = false /\
  error (state w') = None /\
  lastQuery (state w') = None /\
  state w' = set_isSubscribed (isSubscribed (state w)) initialState /\
  isSubscribed (state w') = isSubscribed (state w) /\
  documentChannel w' = documentChannel w /\
  regulationChannel w' = regulationChannel w /\
  channels w' = channels w.
Proof.
  cbv zeta. repeat split; reflexivity.
Qed.

(** A live subscription keeps delivering into the emptied lists. *)
Lemma reset_then_insert (payload : Payload) (s : RagState) :
  eventType payload = "INSERT" ->
  documents (onDocumentsChange payload (reset s)) = [new payload].
Proof.
  intros E. unfold onDocumentsChange. now rewrite E.
Qed.

(** ** The store: searching *)

(** What [searchDocuments] does before the request, and on each way the
    request can fail. *)
Lemma search_begin_fields (query : string) (s : RagState) :
  isLoading (search_begin query s) = true /\
  error (search_begin query s) = None /\
  lastQuery (search_begin query s) = Some query /\
  searchResults (search_begin query s) = searchResults s.
Proof. repeat split; reflexivity. Qed.

Lemma search_settle_not_ok (response : Response) (s : RagState) :
  ok response = false ->
  let s' := searchDocuments_settle (Responded response) s in
  error s' = Some "搜尋失敗" /\ isLoading s' = false /\
  searchResults s' = searchResults s.
Proof.
  intros Hok. unfold searchDocuments_settle. rewrite Hok. simpl.
  repeat split; reflexivity.
Qed.

Lemma search_settle_rejected (err : JsError) (s : RagState) :
  let s' := searchDocuments_settle (Rejected err) s in
  error s' = Some (message err) /\ isLoading s' = false /\
  searchResults s' = searchResults s.
Proof. repeat split; reflexivity. Qed.

(** On success the store keeps the [results] property of the response. *)
Lemma search_settle_ok (response : Response) (parsed results : JsVal) (s : RagState) :
  ok response = true ->
  json response = Normal parsed ->
  get parsed "results" = Normal results ->
  let s' := searchDocuments_settle (Responded response) s in
  searchResults s' = results /\ isLoading s' = false.
Proof.
  intros Hok Hjson Hres. unfold searchDocuments_settle.
  rewrite Hok, Hjson. cbn [negb bind].
  rewrite (destructure_get _ _ _ _ Hres). split; reflexivity.
Qed.

Section RouteFacts.

Let absentC (c : Completion Response) : Prop :=
  match c with
  | Normal r => results_absent r
  | Throw _ => True
  end.

Lemma bind_absent {A} (c : Completion A) (k : A -> Completion Response) :
  (forall a, absentC (k a)) -> absentC (bind c k).
Proof.
  intros Hk. destruct c as [a | e]; simpl; [apply Hk | exact I].
Qed.

(** Whatever the route answers, its body carries no [results]: the list
    of hits travels under [data]. *)
Lemma route_never_sends_results (body : Completion JsVal)
    (ollama : string -> SearchRoute.OllamaReply)
    (rpc : JsVal -> Completion SearchRoute.RpcResult) :
  results_absent (SearchRoute.POST body ollama rpc).
Proof.
  unfold SearchRoute.POST.
  match goal with
  | |- results_absent (match ?c with Normal r => r | Throw err => _ end) =>
      assert (H : absentC c); [| destruct c; [exact H | reflexivity]]
  end.
  repeat (apply bind_absent; intros ?).
  match goal with
  | |- absentC (if ?b then _ else _) => destruct b; [reflexivity |]
  end.
  repeat (apply bind_absent; intros ?).
  match goal with
  | |- absentC (match ?e with Some _ => _ | None => _ end) =>
      destruct e; [reflexivity |]
  end.
  apply bind_absent; intros ?. reflexivity.
Qed.

End RouteFacts.

(** C4, on the code: the endpoint answers 200 with the hit under [data],
    and the store, reading [results], ends with [searchResults] undefined
    and no error. *)
Theorem search_success_loses_results :
  let response :=
    SearchRoute.POST (Normal (search_request "grounding" (Some 5%Z)))
      ollama_answers rpc_one_hit in
  let s' :=
    searchDocuments (rag_search ollama_answers rpc_one_hit)
      "grounding" (Some 5%Z) (fun x => x) initialState in
  ok response = true /\
  (parsed <- json response;; get parsed "data") = Normal (VArr [one_hit]) /\
  searchResults s' = VUndefined /\
  isLoading s' = false /\
  error s' = None /\
  lastQuery s' = Some "grounding".
Proof.
  cbv zeta. repeat split; reflexivity.
Qed.

(** The same for every answer of the route the store takes as a success. *)
Lemma search_via_route_undefined (ollama : string -> SearchRoute.OllamaReply)
    (rpc : JsVal -> Completion SearchRoute.RpcResult) (query : string) (limit : option Z)
    (during : RagState -> RagState) (s : RagState) :
  ok (SearchRoute.POST (Normal (search_request query limit)) ollama rpc) = true ->
  searchResults (searchDocuments (rag_search ollama rpc) query limit during s)
  = VUndefined.
Proof.
  intros Hok. unfold searchDocuments, rag_search, searchDocuments_settle.
  rewrite Hok. simpl.
  pose proof (route_never_sends_results
                (Normal (search_request query limit)) ollama rpc) as H.
  unfold results_absent in H.
  rewrite (bind_destructure_get "(intermediate value)" _ _ _ H). reflexivity.
Qed.

(** ** The renderer: dispatch *)

Section DispatchFacts.

Variable fuel : nat.

Lemma component_value_type (c : MCPUIComponent) :
  get (component_value c) "type" = Normal (VStr (type c)).
Proof. destruct c; reflexivity. Qed.

Lemma component_value_props (c : MCPUIComponent) :
  get (component_value c) "props" = Normal (props c).
Proof. destruct c; reflexivity. Qed.

(** The six cases of the [switch]. *)
Lemma dispatch_cases (component : JsVal) :
  (get component "type" = Normal (VStr "button") ->
   MCPRenderer (S fuel) component = lift (MCPButton component)) /\
  (get component "type" = Normal (VStr "card") ->
   MCPRenderer (S fuel) component = MCPCard (MCPRenderer fuel) component) /\
  (get component "type" = Normal (VStr "data-table") ->
   MCPRenderer (S fuel) component = lift (MCPDataTable component)) /\
  (get component "type" = Normal (VStr "dialog") ->
   MCPRenderer (S fuel) component = MCPDialog (MCPRenderer fuel) component) /\
  (get component "type" = Normal (VStr "input") ->
   MCPRenderer (S fuel) component = lift (MCPInput component)) /\
  (get component "type" = Normal (VStr "form") ->
   MCPRenderer (S fuel) component = lift (MCPForm component)).
Proof.
  repeat split; intros H; simpl; rewrite H; reflexivity.
Qed.

(** The [default] branch: a kind that is none of the six cases. *)
Lemma dispatch_default (component : JsVal) (kind : string) :
  get component "type" = Normal (VStr kind) ->
  ~ In kind ["button"; "card"; "data-table"; "dialog"; "input"; "form"] ->
  MCPRenderer (S fuel) component = Some (Normal (unknown_placeholder (VStr kind))).
Proof.
  intros Hty Hout. simpl in Hout.
  assert (Hne : forall literal, In literal ["button"; "card"; "data-table";
                                            "dialog"; "input"; "form"] ->
                                is_string (VStr kind) literal = false).
  { intros literal Hin. simpl. apply String.eqb_neq. intros ->.
    apply Hout. simpl in Hin. tauto. }
  cbn [MCPRenderer]. rewrite Hty. cbn [lift bindR].
  rewrite !Hne by (simpl; tauto). reflexivity.
Qed.

(** A kind outside the enumeration shows the placeholder; nothing is
    thrown, whatever [props] holds. *)
Lemma unknown_kind_placeholder (c : MCPUIComponent) :
  ~ In (type c) validTypes ->
  MCPRenderer (S fuel) (component_value c) =
  Some (Normal (unknown_placeholder (VStr (type c)))).
Proof.
  intros Hout. apply dispatch_default.
  - apply component_value_type.
  - intros Hin. apply Hout. unfold validTypes. simpl in Hin |- *. tauto.
Qed.

(** So do four kinds of the enumeration: the [switch] has no case for
    them. *)
Lemma enumerated_kinds_without_case (t : ShadcnComponentType) (p : JsVal)
    (options : option ComponentOptions) :
  In t [chart; alert; badge; toast] ->
  MCPRenderer (S fuel) (component_value (createMCPComponent t p options)) =
  Some (Normal (unknown_placeholder (VStr (kind_name t)))).
Proof.
  intros Hin. apply dispatch_default.
  - apply component_value_type.
  - simpl in Hin.
    destruct Hin as [<- | [<- | [<- | [<- | []]]]]; simpl;
      intros H; repeat (destruct H as [H | H]; [discriminate H |]); exact H.
Qed.

End DispatchFacts.

(** C6, on the code: a badge built by the factory is in the enumeration
    and passes the validator, and the renderer shows the unknown-kind
    placeholder for it. *)
Theorem badge_renders_placeholder (fuel : nat) :
  In (type new_badge) validTypes /\
  validateMCPComponent new_badge = {| valid := true; errors := [] |} /\
  MCPRenderer (S fuel) (component_value new_badge) =
  Some (Normal
          (Elem "div" [("className", VStr "text-red-500")]
             [Text unknown_type_prefix; Expr (VStr "badge")])).
Proof.
  split; [simpl; tauto |]. split; reflexivity.
Qed.

(** ** The renderer: form submission *)

Section FormFacts.

(** A truthy value has properties to read. *)
Lemma truthy_get (v : JsVal) (k : string) :
  truthy v = true -> exists x, get v k = Normal x.
Proof.
  destruct v; simpl; intros H; try discriminate; eexists; reflexivity.
Qed.

(** With distinct field names, the submitted object holds each field's
    value under its name. *)
Lemma fromEntries_live_values (entries : list (string * string)) :
  NoDup (map fst entries) ->
  forall name value,
    In (name, value) entries ->
    lookup name (Object_fromEntries (entry_values entries)) = VStr value.
Proof.
  induction entries as [| [k v] rest IH] using rev_ind; intros Hnd name value Hin.
  - contradiction.
  - unfold entry_values in *. rewrite map_app in *. simpl in *.
    apply NoDup_remove in Hnd. rewrite app_nil_r in Hnd. destruct Hnd as [Hnd Hfresh].
    apply in_app_or in Hin. destruct Hin as [Hin | [Heq | []]].
    + assert (Hne : name <> k).
      { intros ->. apply Hfresh. apply in_map_iff. now exists (k, value). }
      rewrite lookup_fromEntries_skip by exact Hne. now apply IH.
    + injection Heq as <- <-. apply lookup_fromEntries_app.
Qed.

End FormFacts.

(** C7. Submitting a form always prevents the default navigation.  With an
    [onSubmit] action, the callback is invoked once, with the action's
    [tool] and an object whose [formData] is the object of the live field
    values (whatever the action's [params] hold under that key) and whose
    other properties are exactly those of the action's [params]; with
    distinct field names the live object maps each name to its value.
    Without an [onSubmit] action the callback is not invoked. *)
Theorem form_submit_sends_live_values (component props onSubmit : JsVal)
    (entries : list (string * string)) :
  get component "props" = Normal props ->
  get props "onSubmit" = Normal onSubmit ->
  let live := Object_fromEntries (entry_values entries) in
  let run := MCPForm_handleSubmit (handleAction true) component entries in
  (truthy onSubmit = true ->
   exists toolv paramsv sent,
     get onSubmit "tool" = Normal toolv /\
     get onSubmit "params" = Normal paramsv /\
     run = mkRun [PreventDefault; Invoke toolv (VObj sent)] None /\
     lookup "formData" sent = VObj live /\
     (forall k, k <> "formData" -> lookup k sent = lookup k (spread paramsv)) /\
     (forall k, In k (map fst sent) <->
                k = "formData" \/ In k (map fst (spread paramsv)))) /\
  (truthy onSubmit = false -> run = mkRun [PreventDefault] None) /\
  (NoDup (map fst entries) ->
   forall name value, In (name, value) entries -> lookup name live = VStr value).
Proof.
  intros Hprops Hsubmit. cbv zeta.
  unfold MCPForm_handleSubmit. rewrite Hprops. cbn [bind]. rewrite Hsubmit.
  split; [| split].
  - intros Htruthy. rewrite Htruthy.
    destruct (truthy_get onSubmit "tool" Htruthy) as [toolv Htool].
    destruct (truthy_get onSubmit "params" Htruthy) as [paramsv Hparams].
    exists toolv, paramsv,
      (obj_set "formData" (VObj (Object_fromEntries (entry_values entries)))
               (spread paramsv)).
    rewrite Htool, Hparams. cbn [bind handleAction].
    split; [reflexivity |]. split; [reflexivity |]. split; [reflexivity |].
    split; [apply lookup_obj_set_same |].
    split.
    + intros k Hne. now apply lookup_obj_set_other.
    + intros k. apply keys_obj_set.
  - intros Hfalsy. now rewrite Hfalsy.
  - apply fromEntries_live_values.
Qed.

Lemma form_submit_sends_live_values_witness :
  let run := MCPForm_handleSubmit (handleAction true) example_form [("x", "y")] in
  (exists sent,
      run = mkRun [PreventDefault; Invoke (VStr "save") (VObj sent)] None /\
      lookup "formData" sent = VObj [("x", VStr "y")] /\
      lookup "a" sent = VNum 1) /\
  MCPForm_handleSubmit (handleAction true) example_form_without_action [("x", "y")]
  = mkRun [PreventDefault] None.
Proof.
  cbv zeta. split.
  - destruct (form_submit_sends_live_values example_form
                (VObj [("fields",
                         VArr [VObj [("name", VStr "x"); ("label", VStr "X");
                                     ("type", VStr "text")]]);
                       ("onSubmit",
                         VObj [("event", VStr "submit");
                               ("tool", VStr "save");
                               ("params",
                                 VObj [("a", VNum 1);
                                       ("formData", VStr "ignored")])])])
                (VObj [("event", VStr "submit");
                       ("tool", VStr "save");
                       ("params",
                         VObj [("a", VNum 1); ("formData", VStr "ignored")])])
                [("x", "y")] eq_refl eq_refl) as (Hwith & _ & _).
    destruct (Hwith eq_refl)
      as (toolv & paramsv & sent & Htool & Hparams & Hrun & Hform & Hkeep & _).
    injection Htool as <-. injection Hparams as <-.
    exists sent. split; [exact Hrun |]. split; [exact Hform |].
    rewrite Hkeep by discriminate. reflexivity.
  - destruct (form_submit_sends_live_values example_form_without_action
                (VObj [("fields",
                         VArr [VObj [("name", VStr "x"); ("label", VStr "X");
                                     ("type", VStr "text")]])])
                VUndefined [("x", "y")] eq_refl eq_refl) as (_ & Hwithout & _).
    exact (Hwithout eq_refl).
Defined.

(** ** The renderer: data tables *)

Section TableFacts.

Lemma mapM_map {A B} (g : A -> JsVal) (f : JsVal -> nat -> Completion B)
    (h : A -> nat -> B) (xs : list A) :
  (forall x i, f (g x) i = Normal (h x i)) ->
  forall i, mapM f i (map g xs) = Normal (indexed_map h i xs).
Proof.
  intros Hf. induction xs as [| x rest IH]; intros i; simpl.
  - reflexivity.
  - now rewrite Hf, IH.
Qed.

Lemma indexed_map_const {A B} (h : A -> B) (xs : list A) (i : nat) :
  indexed_map (fun x _ => h x) i xs = map h xs.
Proof.
  revert i. induction xs as [| x rest IH]; intros i; simpl; [| rewrite IH];
    reflexivity.
Qed.





Lemma sequence_map_printable (piece : JsVal -> Completion string) (items : list JsVal) :
  (forall x, In x items -> exists s, piece x = Normal s) ->
  exists pieces, sequence (map piece items) = Normal pieces.
Proof.
  induction items as [| x rest IH]; intros Hall; simpl.
  - eexists. reflexivity.
  - destruct (Hall x (or_introl eq_refl)) as [s ->].
    destruct IH as [pieces ->]; [intros y Hy; apply Hall; now right |].
    eexists. reflexivity.
Qed.






Variable columns : list DataTableColumn.










End TableFacts.




(** ** The renderer: enough fuel always gives a result *)

Section FuelFacts.

Lemma depth_lookup (k : string) (fields : list (string * JsVal)) :
  depth (lookup k fields) <=
  fold_right (fun kv acc => Nat.max (depth (snd kv)) acc) 0 fields.
Proof.
  induction fields as [| [k' v] rest IH]; simpl.
  - apply Nat.le_refl.
  - destruct (k' =? k); lia.
Qed.

Lemma depth_lookup_indexed (k : string) (items : list JsVal) (i : nat) :
  depth (lookup k (indexed i items)) <=
  fold_right (fun x acc => Nat.max (depth x) acc) 0 items.
Proof.
  revert i. induction items as [| x rest IH]; intros i; simpl.
  - apply Nat.le_refl.
  - specialize (IH (S i)). destruct (string_of_nat i =? k); lia.
Qed.

Lemma depth_chars (k : string) (s : string) (i : nat) :
  depth (lookup k (indexed i (chars s))) = 0.
Proof.
  revert i. induction s as [| c rest IH]; intros i; simpl.
  - reflexivity.
  - destruct (string_of_nat i =? k); [reflexivity | apply IH].
Qed.

Lemma get_depth_le (v x : JsVal) (k : string) :
  get v k = Normal x -> depth x <= depth v.
Proof.
  destruct v; simpl; intros H; try discriminate; injection H as <-;
    try apply Nat.le_0_l.
  - destruct (k =? "length"); [apply Nat.le_0_l |]. now rewrite depth_chars.
  - destruct (k =? "length"); [simpl; lia |].
    pose proof (depth_lookup_indexed k items 0). lia.
  - pose proof (depth_lookup k fields). simpl. lia.
Qed.

(** An index is never the name [type]. *)
Lemma string_of_nat_not_type (i : nat) : (string_of_nat i =? "type") = false.
Proof.
  unfold string_of_nat. destruct (Nat.to_uint i); reflexivity.
Qed.

Lemma lookup_type_indexed (items : list JsVal) (i : nat) :
  lookup "type" (indexed i items) = VUndefined.
Proof.
  revert i. induction items as [| x rest IH]; intros i; simpl.
  - reflexivity.
  - rewrite string_of_nat_not_type. apply IH.
Qed.

(** Only an object has a string for its [type]; what it holds is strictly
    shallower. *)
Lemma get_type_object (v : JsVal) (s : string) :
  get v "type" = Normal (VStr s) ->
  forall k x, get v k = Normal x -> depth x < depth v.
Proof.
  destruct v; simpl; intros H; try discriminate.
  - rewrite lookup_type_indexed in H. discriminate.
  - rewrite lookup_type_indexed in H. discriminate.
  - intros k x Hx. injection Hx as <-.
    pose proof (depth_lookup k fields). lia.
Qed.

Lemma bindR_defined {A B} (m : R A) (k : A -> R B) :
  m <> None -> (forall a, m = Some (Normal a) -> k a <> None) ->
  bindR m k <> None.
Proof.
  intros Hm Hk. destruct m as [[a | e] |]; simpl.
  - now apply Hk.
  - discriminate.
  - contradiction.
Qed.

Lemma bindR_lift_defined {A B} (c : Completion A) (k : A -> R B) :
  (forall a, c = Normal a -> k a <> None) -> bindR (lift c) k <> None.
Proof.
  intros Hk. apply bindR_defined; [discriminate |].
  intros a Ha. apply Hk. unfold lift in Ha. congruence.
Qed.

Variable render : JsVal -> R Element.
Variable n : nat.
Hypothesis render_defined : forall x, depth x < n -> render x <> None.

Lemma MCPCard_defined (component : JsVal) :
  (forall props, get component "props" = Normal props -> depth props < n) ->
  MCPCard render component <> None.
Proof.
  intros Hshallow. unfold MCPCard.
  apply bindR_lift_defined; intros props Hprops.
  apply bindR_lift_defined; intros title _.
  apply bindR_lift_defined; intros description _.
  apply bindR_lift_defined; intros content Hcontent.
  apply bindR_defined.
  { destruct (typeof content =? "string"); [discriminate |].
    apply render_defined. apply get_depth_le in Hcontent.
    specialize (Hshallow _ Hprops). lia. }
  intros contentEl _.
  apply bindR_lift_defined; intros footer Hfooter.
  apply bindR_defined.
  { destruct (truthy footer); [| discriminate].
    apply bindR_defined; [| discriminate].
    destruct (typeof footer =? "string"); [discriminate |].
    apply render_defined. apply get_depth_le in Hfooter.
    specialize (Hshallow _ Hprops). lia. }
  discriminate.
Qed.

Lemma MCPDialog_defined (component : JsVal) :
  (forall props, get component "props" = Normal props -> depth props < n) ->
  MCPDialog render component <> None.
Proof.
  intros Hshallow. unfold MCPDialog.
  apply bindR_lift_defined; intros props Hprops.
  specialize (Hshallow _ Hprops).
  apply bindR_lift_defined; intros trigger Htrigger.
  apply bindR_defined.
  { apply render_defined. apply get_depth_le in Htrigger. lia. }
  intros triggerEl _.
  apply bindR_lift_defined; intros title _.
  apply bindR_lift_defined; intros description _.
  apply bindR_lift_defined; intros content Hcontent.
  apply bindR_defined.
  { apply render_defined. apply get_depth_le in Hcontent. lia. }
  discriminate.
Qed.

End FuelFacts.

(** Rendering terminates: fuel beyond the nesting depth of the component
    always yields an element or a thrown error. *)
Lemma MCPRenderer_defined (fuel : nat) :
  forall component, depth component < fuel -> MCPRenderer fuel component <> None.
Proof.
  induction fuel as [| fuel IH]; intros component Hdepth; [lia |].
  cbn [MCPRenderer].
  apply bindR_lift_defined; intros ty Hty.
  destruct (is_string ty "button"); [discriminate |].
  destruct (is_string ty "card") eqn:Ecard.
  { destruct ty; try discriminate Ecard.
    apply (MCPCard_defined _ fuel IH). intros props Hprops.
    pose proof (get_type_object _ _ Hty _ _ Hprops). lia. }
  destruct (is_string ty "data-table"); [discriminate |].
  destruct (is_string ty "dialog") eqn:Edialog.
  { destruct ty; try discriminate Edialog.
    apply (MCPDialog_defined _ fuel IH). intros props Hprops.
    pose proof (get_type_object _ _ Hty _ _ Hprops). lia. }
  destruct (is_string ty "input"); [discriminate |].
  destruct (is_string ty "form"); discriminate.
Qed.

(** More fuel never changes a result. *)
Section FuelMonotone.

Lemma bindR_mono {A B} (m1 m2 : R A) (k1 k2 : A -> R B) (res : Completion B) :
  (forall a, m1 = Some a -> m2 = Some a) ->
  (forall a r, k1 a = Some r -> k2 a = Some r) ->
  bindR m1 k1 = Some res -> bindR m2 k2 = Some res.
Proof.
  intros Hm Hk. destruct m1 as [[a | e] |]; simpl; intros H.
  - rewrite (Hm _ eq_refl). simpl. now apply Hk.
  - rewrite (Hm _ eq_refl). exact H.
  - discriminate.
Qed.

Variables render1 render2 : JsVal -> R Element.
Hypothesis render_extends :
  forall x r, render1 x = Some r -> render2 x = Some r.

Lemma MCPCard_mono (component : JsVal) (res : Completion Element) :
  MCPCard render1 component = Some res -> MCPCard render2 component = Some res.
Proof.
  unfold MCPCard.
  do 4 (apply bindR_mono; [solve [auto] |]; intros ? ?).
  apply bindR_mono.
  { destruct (typeof _ =? "string"); auto. }
  intros ? ?. apply bindR_mono; [auto |]. intros footer ?.
  apply bindR_mono; [| auto].
  destruct (truthy footer); [| auto].
  intros ?. apply bindR_mono; [| auto].
  destruct (typeof footer =? "string"); auto.
Qed.

Lemma MCPDialog_mono (component : JsVal) (res : Completion Element) :
  MCPDialog render1 component = Some res -> MCPDialog render2 component = Some res.
Proof.
  unfold MCPDialog.
  do 7 (apply bindR_mono; [solve [auto] |]; intros ? ?).
  auto.
Qed.

End FuelMonotone.

Lemma MCPRenderer_fuel_irrelevant (fuel : nat) :
  forall component result,
    MCPRenderer fuel component = Some result ->
    MCPRenderer (S fuel) component = Some result.
Proof.
  induction fuel as [| fuel IH]; intros component result; [discriminate |].
  change (MCPRenderer (S (S fuel)) component)
    with (ty <~ lift (get component "type");;
          if is_string ty "button" then lift (MCPButton component)
          else if is_string ty "card" then MCPCard (MCPRenderer (S fuel)) component
          else if is_string ty "data-table" then lift (MCPDataTable component)
          else if is_string ty "dialog" then MCPDialog (MCPRenderer (S fuel)) component
          else if is_string ty "input" then lift (MCPInput component)
          else if is_string ty "form" then lift (MCPForm component)
          else lift (Normal (unknown_placeholder ty))).
  cbn [MCPRenderer].
  apply bindR_mono; [auto |]. intros ty r.
  destruct (is_string ty "button"); [auto |].
  destruct (is_string ty "card"); [apply MCPCard_mono; exact IH |].
  destruct (is_string ty "data-table"); [auto |].
  destruct (is_string ty "dialog"); [apply MCPDialog_mono; exact IH |].
  auto.
Qed.

(* ================================================================= *)
(** * Further properties of the code *)

(** ** The validator over whole trees *)

Section TreeFacts.

(** Induction over component trees, with the children as a list. *)
Lemma component_tree_ind (P : MCPUIComponent -> Prop) :
  (forall c,
      (forall cs, children c = Some cs -> Forall P cs) -> P c) ->
  forall c, P c.
Proof.
  intros Hstep. fix IH 1. intros c. apply Hstep.
  destruct c as [ty pr va [cs |] ac]; simpl; [| discriminate].
  assert (Hall : Forall P cs).
  { induction cs as [| child rest IHrest]; constructor; [apply IH | exact IHrest]. }
  intros cs' Hcs. injection Hcs as <-. exact Hall.
Qed.

Lemma flat_map_ext_Forall {A B} (f g : A -> list B) (xs : list A) :
  Forall (fun x => f x = g x) xs -> flat_map f xs = flat_map g xs.
Proof.
  induction 1 as [| x rest Hx _ IH]; simpl; [reflexivity | now rewrite Hx, IH].
Qed.

Lemma flat_map_flat_map {A B C} (f : A -> list B) (g : B -> list C) (xs : list A) :
  flat_map g (flat_map f xs) = flat_map (fun x => flat_map g (f x)) xs.
Proof.
  induction xs as [| x rest IH]; simpl; [reflexivity |].
  now rewrite flat_map_app, IH.
Qed.

Lemma validate_errors_preorder (c : MCPUIComponent) :
  errors (validateMCPComponent c) = flat_map own_errors (nodes c).
Proof.
  induction c as [c IH] using component_tree_ind.
  rewrite validate_errors.
  destruct c as [ty pr va ch ac]. cbn [nodes children type props flat_map] in *.
  unfold own_errors at 1. cbn [type props]. rewrite <- !app_assoc. do 2 f_equal.
  destruct ch as [cs |]; [| reflexivity].
  rewrite flat_map_flat_map. apply flat_map_ext_Forall. now apply IH.
Qed.

Lemma own_errors_nil (c : MCPUIComponent) :
  own_errors c = [] <-> In (type c) validTypes /\ truthy (props c) = true.
Proof.
  unfold own_errors. rewrite <- includes_In.
  destruct (includes validTypes (type c)), (truthy (props c)); simpl;
    split; try discriminate; try tauto; intros [? ?]; discriminate.
Qed.

Lemma flat_map_nil {A B} (f : A -> list B) (xs : list A) :
  flat_map f xs = [] <-> Forall (fun x => f x = []) xs.
Proof.
  induction xs as [| x rest IH]; simpl.
  - split; [constructor | reflexivity].
  - split.
    + intros H. apply app_eq_nil in H. destruct H as [Hx Hrest].
      constructor; [exact Hx | now apply IH].
    + intros H. inversion H as [| ? ? Hx Hrest]; subst.
      rewrite Hx. now apply IH.
Qed.

End TreeFacts.

(** X1. The errors the validator returns are the own errors of every node
    of the tree, in document order (a parent before its children, children
    from left to right); each node adds at most two. *)
Theorem errors_follow_document_order (component : MCPUIComponent) :
  errors (validateMCPComponent component) = flat_map own_errors (nodes component) /\
  List.length (errors (validateMCPComponent component))
  <= 2 * List.length (nodes component).
Proof.
  split; [apply validate_errors_preorder |].
  rewrite validate_errors_preorder.
  induction (nodes component) as [| n rest IH]; simpl; [apply Nat.le_refl |].
  rewrite length_app.
  assert (List.length (own_errors n) <= 2).
  { unfold own_errors.
    destruct (includes validTypes (type n)), (truthy (props n)); simpl; lia. }
  lia.
Qed.

(** X2. A tree is valid exactly when every node of it, at any depth, has a
    kind of the enumeration and a truthy [props]. *)
Theorem valid_iff_all_nodes_ok (component : MCPUIComponent) :
  valid (validateMCPComponent component) = true <->
  Forall (fun n => In (type n) validTypes /\ truthy (props n) = true)
         (nodes component).
Proof.
  rewrite validate_valid, validate_errors_preorder.
  rewrite Nat.eqb_eq, length_zero_iff_nil, flat_map_nil.
  split; intros H; eapply Forall_impl; try exact H; intros n Hn;
    now apply own_errors_nil.
Qed.

(** X3. The validator reads a node's kind, whether its [props] is truthy,
    and its children, and nothing else: the variant, the actions and what
    [props] holds (nested components included) never change the result. *)
Theorem validate_ignores_props_content (ty : string) (p1 p2 : JsVal)
    (v1 v2 : option ComponentVariant) (ch : option (list MCPUIComponent))
    (a1 a2 : option (list MCPUIAction)) :
  truthy p1 = truthy p2 ->
  validateMCPComponent (mkComponent ty p1 v1 ch a1) =
  validateMCPComponent (mkComponent ty p2 v2 ch a2).
Proof.
  intros Hsame.
  cbn [validateMCPComponent type props children]. now rewrite Hsame.
Qed.

Lemma validate_ignores_props_content_witness :
  validateMCPComponent
    (mkComponent "card"
       (VObj [("title", VStr "t"); ("content", component_value video_component)])
       None None None) =
  validateMCPComponent
    (mkComponent "card" (VObj [("title", VStr "t"); ("content", VStr "text")])
       (Some outline) None (Some [mkAction "click" "open" VNull])).
Proof.
  apply validate_ignores_props_content. reflexivity.
Defined.

(** ** The renderer: event handlers *)

Section HandlerFacts.

Lemma findM_click (acts : list MCPUIAction) :
  findM (fun a => ev <- get a "event";; Normal (is_string ev "click"))
        (map action_value acts) =
  Normal (match find (fun a => event a =? "click") acts with
          | Some a => action_value a
          | None => VUndefined
          end).
Proof.
  induction acts as [| a rest IH]; simpl; [reflexivity |].
  destruct (event a =? "click"); [reflexivity | exact IH].
Qed.

Lemma component_value_actions (c : MCPUIComponent) :
  get (component_value c) "actions" =
  Normal (opt_value (fun l => VArr (map action_value l)) (actions c)).
Proof. destruct c; reflexivity. Qed.

End HandlerFacts.

(** X4. Activating a button invokes the action callback for the first
    action of the component whose event is [click], with that action's tool
    and parameters, and for no other; a button with no such action (or no
    actions at all) invokes nothing.  It never throws. *)
Theorem button_click_runs_first_click_action (c : MCPUIComponent)
    (onAction : JsVal -> JsVal -> list Effect) :
  MCPButton_handleClick onAction (component_value c) =
  mkRun
    (match find (fun a => event a =? "click")
                (match actions c with Some l => l | None => [] end) with
     | Some a => onAction (VStr (tool a)) (params a)
     | None => []
     end)
    None.
Proof.
  unfold MCPButton_handleClick. rewrite component_value_actions.
  destruct (actions c) as [acts |]; cbn [opt_value bind optional_find];
    [| reflexivity].
  rewrite findM_click.
  destruct (find (fun a => event a =? "click") acts) as [a |]; reflexivity.
Qed.

(** X5. When the caller supplied no callback, no handler ever invokes one:
    activating a button or submitting a form only logs, and submitting
    still prevents the default navigation first. *)
Theorem without_callback_nothing_is_invoked (component : JsVal)
    (entries : list (string * string)) :
  (forall e, In e (trace (MCPButton_handleClick (handleAction false) component)) ->
             exists args, e = ConsoleLog args) /\
  (exists rest,
      trace (MCPForm_handleSubmit (handleAction false) component entries)
      = PreventDefault :: rest /\
      forall e, In e rest -> exists args, e = ConsoleLog args).
Proof.
  split.
  - unfold MCPButton_handleClick.
    destruct (acts <- get component "actions";; _) as [clickAction | err];
      simpl; [| contradiction].
    destruct (truthy clickAction); simpl; [| contradiction].
    destruct (t <- get clickAction "tool";; _) as [[t p] | err];
      simpl; [| contradiction].
    intros e [<- | []]. eexists. reflexivity.
  - unfold MCPForm_handleSubmit.
    destruct (props <- get component "props";; _) as [onSubmit | err]; simpl;
      [| exists []; split; [reflexivity | contradiction]].
    destruct (truthy onSubmit); simpl;
      [| exists []; split; [reflexivity | contradiction]].
    destruct (t <- get onSubmit "tool";; _) as [[t p] | err]; simpl;
      [| exists []; split; [reflexivity | contradiction]].
    eexists. split; [reflexivity |].
    intros e [<- | []]. eexists. reflexivity.
Qed.

(** The value [Object.fromEntries] keeps for a name is the one of the last
    entry under that name. *)
Lemma fromEntries_last_entry (before after : list (string * JsVal))
    (k : string) (v : JsVal) :
  ~ In k (map fst after) ->
  lookup k (Object_fromEntries (before ++ (k, v) :: after)) = v.
Proof.
  induction after as [| [k' v'] rest IH] using rev_ind; intros Hlast.
  - apply lookup_fromEntries_app.
  - rewrite map_app, in_app_iff in Hlast. simpl in Hlast.
    change (before ++ (k, v) :: rest ++ [(k', v')])%list
      with (before ++ ((k, v) :: rest) ++ [(k', v')])%list.
    rewrite app_assoc, lookup_fromEntries_skip.
    + apply IH. tauto.
    + intros ->. tauto.
Qed.

(** X6. When a submitted form has several entries under one name, the
    [formData] handed to the callback holds the value of the last of
    them. *)
Theorem submit_sends_last_value_of_a_name (component props onSubmit : JsVal)
    (before after : list (string * string)) (k v : string) :
  get component "props" = Normal props ->
  get props "onSubmit" = Normal onSubmit ->
  truthy onSubmit = true ->
  ~ In k (map fst after) ->
  exists toolv sent live,
    MCPForm_handleSubmit (handleAction true) component (before ++ (k, v) :: after)
    = mkRun [PreventDefault; Invoke toolv (VObj sent)] None /\
    lookup "formData" sent = VObj live /\
    lookup k live = VStr v.
Proof.
  intros Hprops Hsubmit Htruthy Hlast.
  unfold MCPForm_handleSubmit. rewrite Hprops. cbn [bind]. rewrite Hsubmit, Htruthy.
  destruct (truthy_get onSubmit "tool" Htruthy) as [toolv ->].
  destruct (truthy_get onSubmit "params" Htruthy) as [paramsv ->].
  cbn [bind handleAction].
  do 3 eexists. split; [reflexivity |].
  split; [apply lookup_obj_set_same |].
  rewrite map_app. cbn [map fst snd].
  apply fromEntries_last_entry.
  rewrite map_map. cbn [fst]. exact Hlast.
Qed.

Lemma submit_sends_last_value_of_a_name_witness :
  exists toolv sent live,
    MCPForm_handleSubmit (handleAction true) example_form
      [("x", "1"); ("y", "2"); ("x", "3"); ("z", "4")]
    = mkRun [PreventDefault; Invoke toolv (VObj sent)] None /\
    lookup "formData" sent = VObj live /\
    lookup "x" live = VStr "3".
Proof.
  apply (submit_sends_last_value_of_a_name example_form
           (VObj [("fields",
                    VArr [VObj [("name", VStr "x"); ("label", VStr "X");
                                ("type", VStr "text")]]);
                  ("onSubmit",
                    VObj [("event", VStr "submit");
                          ("tool", VStr "save");
                          ("params",
                            VObj [("a", VNum 1);
                                  ("formData", VStr "ignored")])])])
           (VObj [("event", VStr "submit");
                  ("tool", VStr "save");
                  ("params", VObj [("a", VNum 1); ("formData", VStr "ignored")])])
           [("x", "1"); ("y", "2")] [("z", "4")] "x" "3");
    try reflexivity.
  simpl. intros [H | []]. discriminate H.
Defined.

(** ** The renderer: nesting, missing props, fuel *)

Section NestingFacts.

Lemma typeof_component_value (c : MCPUIComponent) :
  typeof (component_value c) = "object".
Proof. destruct c; reflexivity. Qed.

Lemma truthy_component_value (c : MCPUIComponent) :
  truthy (component_value c) = true.
Proof. destruct c; reflexivity. Qed.

Lemma bindR_Some_Normal {A B} (a : A) (k : A -> R B) :
  bindR (Some (Normal a)) k = k a.
Proof. reflexivity. Qed.

End NestingFacts.

(** X7. A card built by [createCard] renders its content and footer slots
    through the same entry point: a string becomes a paragraph, a nested
    component whatever the renderer gives for it, the content first; an
    absent or empty footer renders no [CardFooter].  So an error thrown by a
    nested component is the error of the card. *)
Theorem card_renders_its_slots (title : string) (content : string + MCPUIComponent)
    (descr : option string) (foot : option (string + MCPUIComponent)) (fuel : nat) :
  MCPRenderer (S fuel)
    (component_value (createCard title content (Some (mkCardOptions descr foot)))) =
  (contentEl <~ render_slot (MCPRenderer fuel) content;;
   footerEl <~ (if slot_present foot then
                  match foot with
                  | Some slot =>
                      inner <~ render_slot (MCPRenderer fuel) slot;;
                      Some (Normal (Elem "CardFooter" [] [inner]))
                  | None => None
                  end
                else Some (Normal (Expr (opt_value content_value foot))));;
   Some (Normal (Elem "Card" []
                   [expected_header "Card" title descr;
                    Elem "CardContent" [] [contentEl];
                    footerEl]))).
Proof.
  rewrite (proj1 (proj2 (dispatch_cases fuel _))) by reflexivity.
  unfold MCPCard.
  cbn [component_value createCard createMCPComponent type props get lookup
       String.eqb Ascii.eqb Bool.eqb lift bindR opt_field description footer].
  assert (Hcontent :
    (if typeof (content_value content) =? "string"
     then lift (Normal (Elem "p" [] [Expr (content_value content)]))
     else MCPRenderer fuel (content_value content))
    = render_slot (MCPRenderer fuel) content).
  { destruct content as [s | c]; simpl; [reflexivity |].
    now rewrite typeof_component_value. }
  rewrite Hcontent.
  destruct (render_slot (MCPRenderer fuel) content) as [[contentEl | e] |];
    cbn [bindR]; try reflexivity.
  destruct foot as [[s | c] |]; cbn [opt_value content_value slot_present].
  - simpl truthy. destruct (s =? ""); reflexivity.
  - rewrite truthy_component_value, typeof_component_value. simpl.
    destruct (MCPRenderer fuel (component_value c)) as [[inner | e] |]; reflexivity.
  - reflexivity.
Qed.

(** X8. A dialog renders its trigger, then its content, through the same
    entry point; when the trigger throws, that error is the dialog's,
    whatever the content is. *)
Theorem dialog_renders_trigger_then_content (title : string) (descr : option string)
    (content trigger : MCPUIComponent) (fuel : nat) :
  MCPRenderer (S fuel) (component_value (dialog_component title descr content trigger)) =
  (triggerEl <~ MCPRenderer fuel (component_value trigger);;
   contentEl <~ MCPRenderer fuel (component_value content);;
   Some (Normal
           (Elem "Dialog" []
              [Elem "DialogTrigger" [("asChild", VBool true)] [triggerEl];
               Elem "DialogContent" []
                 [expected_header "Dialog" title descr; contentEl]]))).
Proof.
  rewrite (proj1 (proj2 (proj2 (proj2 (dispatch_cases fuel _))))) by reflexivity.
  unfold MCPDialog.
  cbn [component_value dialog_component createMCPComponent type props get lookup
       String.eqb Ascii.eqb Bool.eqb lift bindR].
  destruct (MCPRenderer fuel (component_value trigger)) as [[triggerEl | e] |];
    cbn [bindR]; try reflexivity.
Qed.

(** X9. A component of one of the six rendered kinds whose [props] is
    [undefined] or [null] makes the renderer throw; the validator reports
    the same component as missing its props. *)
Theorem missing_props_throw (c : MCPUIComponent) (fuel : nat) :
  In (type c) ["button"; "card"; "data-table"; "dialog"; "input"; "form"] ->
  props c = VUndefined \/ props c = VNull ->
  (exists e, MCPRenderer (S fuel) (component_value c) = Some (Throw e)) /\
  In missing_props (errors (validateMCPComponent c)) /\
  valid (validateMCPComponent c) = false.
Proof.
  intros Hkind Hprops. destruct c as [ty pr va ch ac]. simpl in Hkind, Hprops.
  split; [| split].
  - destruct Hkind as [<- | [<- | [<- | [<- | [<- | [<- | []]]]]]];
      destruct Hprops as [-> | ->]; eexists; reflexivity.
  - rewrite validate_errors. cbn [type props children].
    rewrite !in_app_iff. right. left.
    destruct Hprops as [-> | ->]; simpl; now left.
  - rewrite validate_valid, validate_errors. cbn [type props children].
    destruct Hprops as [-> | ->]; simpl truthy;
      destruct (includes validTypes ty); reflexivity.
Qed.

Lemma missing_props_throw_witness :
  (exists e, MCPRenderer 1 (component_value table_without_props) = Some (Throw e)) /\
  In missing_props (errors (validateMCPComponent table_without_props)).
Proof.
  destruct (missing_props_throw table_without_props 0) as (Hthrow & Herr & _).
  - simpl. tauto.
  - left. reflexivity.
  - split; [exact Hthrow | exact Herr].
Defined.

(** X10. Rendering terminates and its result does not depend on the fuel:
    with any fuel above the nesting depth of the component the renderer
    gives the same element or thrown error. *)
Theorem rendering_is_fuel_independent (component : JsVal) (fuel : nat) :
  depth component < fuel ->
  exists result,
    MCPRenderer (S (depth component)) component = Some result /\
    MCPRenderer fuel component = Some result.
Proof.
  intros Hfuel.
  destruct (MCPRenderer (S (depth component)) component) as [result |] eqn:E.
  - exists result. split; [reflexivity |].
    replace fuel with ((fuel - S (depth component)) + S (depth component)) by lia.
    induction (fuel - S (depth component)) as [| k IH]; simpl plus.
    + exact E.
    + now apply MCPRenderer_fuel_irrelevant.
  - exfalso. revert E. apply MCPRenderer_defined. lia.
Qed.

Lemma rendering_is_fuel_independent_witness :
  exists result,
    MCPRenderer 3 (component_value (createCard "t" (inr save_button) None)) = Some result /\
    MCPRenderer 9 (component_value (createCard "t" (inr save_button) None)) = Some result.
Proof.
  apply (rendering_is_fuel_independent
           (component_value (createCard "t" (inr save_button) None)) 9).
  vm_compute. lia.
Defined.

(** X11. A form built from typed fields renders, in order, one block per
    field (its label, a [*] marker when the field is required, and an input
    named after the field) followed by the submit button, whose text is
    [submitText] or, when that is absent or empty, the default. *)
Theorem form_renders_fields_then_submit (fields : list Forms.FormField)
    (submitText : option string) (onSubmit : option MCPUIAction) (fuel : nat) :
  MCPRenderer (S fuel)
    (component_value (Forms.form_component fields submitText onSubmit)) =
  Some (Normal
          (Elem "form" [("className", VStr "space-y-4")]
             (map expected_field_block fields ++
              [Elem "Button" [("type", VStr "submit")]
                 [Expr (VStr (match submitText with
                              | Some text => if text =? "" then "送出" else text
                              | None => "送出"
                              end))]]))).
Proof.
  rewrite (proj2 (proj2 (proj2 (proj2 (proj2 (dispatch_cases fuel _)))))) by reflexivity.
  unfold MCPForm, lift. f_equal.
  cbn [component_value Forms.form_component createMCPComponent type props get lookup
       String.eqb Ascii.eqb Bool.eqb bind].
  unfold array_map.
  rewrite (mapM_map Forms.field_value FormField_of (fun f _ => expected_field_block f))
    by (intros [] ?; reflexivity).
  cbn [bind]. rewrite indexed_map_const.
  unfold or_else.
  destruct submitText as [text |]; simpl; [| reflexivity].
  destruct (text =? ""); reflexivity.
Qed.

(** ** The store: both tables, invariants, round trips *)

Section StoreFacts.

Lemma map_id_replace (incoming : Row) (rows : list Row) :
  map id (map (fun r => if id r =? id incoming then incoming else r) rows)
  = map id rows.
Proof.
  induction rows as [| r rest IH]; simpl; [reflexivity |].
  rewrite IH. f_equal.
  destruct (id r =? id incoming) eqn:E; [| reflexivity].
  apply String.eqb_eq in E. now symmetry.
Qed.

Lemma NoDup_map_filter {A B} (f : A -> B) (keep : A -> bool) (xs : list A) :
  NoDup (map f xs) -> NoDup (map f (filter keep xs)).
Proof.
  induction xs as [| x rest IH]; simpl; intros Hnd; [constructor |].
  inversion Hnd as [| ? ? Hfresh Hrest]; subst.
  destruct (keep x); simpl; [| now apply IH].
  constructor; [| now apply IH].
  intros Hin. apply Hfresh. apply in_map_iff in Hin.
  destruct Hin as (y & Hy & Hin). apply filter_In in Hin.
  apply in_map_iff. exists y. tauto.
Qed.

Lemma filter_absent_id (gone : string) (rows : list Row) :
  ~ In gone (map id rows) ->
  filter (fun r => negb (id r =? gone)) rows = rows.
Proof.
  induction rows as [| r rest IH]; simpl; intros Habsent; [reflexivity |].
  destruct (id r =? gone) eqn:E.
  - apply String.eqb_eq in E. tauto.
  - simpl. f_equal. apply IH. tauto.
Qed.

Lemma filter_twice {A} (keep : A -> bool) (xs : list A) :
  filter keep (filter keep xs) = filter keep xs.
Proof.
  induction xs as [| x rest IH]; simpl; [reflexivity |].
  destruct (keep x) eqn:E; simpl; [rewrite E, IH |]; auto.
Qed.

Lemma map_replace_twice (incoming : Row) (rows : list Row) :
  let replace := fun r : Row => if id r =? id incoming then incoming else r in
  map replace (map replace rows) = map replace rows.
Proof.
  cbv zeta. rewrite map_map. apply map_ext. intros r.
  destruct (id r =? id incoming) eqn:E; [now rewrite String.eqb_refl | now rewrite E].
Qed.

Lemma set_documents_same (s : RagState) : set_documents (documents s) s = s.
Proof. destruct s; reflexivity. Qed.

End StoreFacts.

(** X12. The [regulations-changes] callback reconciles [regulations] the
    way the documents one does: an insert puts the new record first; an
    update replaces in place the entries whose id is the changed record's,
    and changes nothing when no entry has that id; a delete leaves exactly
    the entries whose id is not the removed record's, in their order and
    with their multiplicity; other kinds are ignored.  Each callback leaves
    the other table's list alone. *)
Theorem regulations_event_reconciles (payload : Payload) (s : RagState) :
  let regs := regulations s in
  let regs' := regulations (onRegulationsChange payload s) in
  (eventType payload = "INSERT" -> regs' = new payload :: regs) /\
  (eventType payload = "UPDATE" ->
     map id regs' = map id regs /\
     (forall i,
         nth_error regs' i =
         option_map (fun reg => if id reg =? id (new payload) then new payload else reg)
                    (nth_error regs i)) /\
     (~ In (id (new payload)) (map id regs) -> regs' = regs)) /\
  (eventType payload = "DELETE" ->
     regs' = filter (fun reg => negb (id reg =? id (old payload))) regs /\
     (forall reg, In reg regs' <-> In reg regs /\ id reg <> id (old payload))) /\
  (eventType payload <> "INSERT" -> eventType payload <> "UPDATE" ->
   eventType payload <> "DELETE" -> onRegulationsChange payload s = s) /\
  documents (onRegulationsChange payload s) = documents s /\
  regulations (onDocumentsChange payload s) = regulations s.
Proof.
  cbv zeta. unfold onRegulationsChange, onDocumentsChange.
  split; [| split; [| split; [| split; [| split]]]].
  - intros ->. reflexivity.
  - intros ->. simpl. split; [apply map_id_replace | split].
    + intros i. apply nth_error_map.
    + intros Habsent. apply map_replace_absent.
      intros reg Hin Heq. apply Habsent. rewrite <- Heq. now apply in_map.
  - intros ->. simpl. split; [reflexivity |].
    intros reg. apply filter_other_ids.
  - intros Hi Hu Hd. apply String.eqb_neq in Hi, Hu, Hd. now rewrite Hi, Hu, Hd.
  - destruct (eventType payload =? "INSERT"); [reflexivity |].
    destruct (eventType payload =? "UPDATE"); [reflexivity |].
    destruct (eventType payload =? "DELETE"); reflexivity.
  - destruct (eventType payload =? "INSERT"); [reflexivity |].
    destruct (eventType payload =? "UPDATE"); [reflexivity |].
    destruct (eventType payload =? "DELETE"); reflexivity.
Qed.

(** X13. Distinct ids stay distinct: if no two documents share an id, the
    same holds after any event, provided an inserted record's id is not
    already in the list (the insert path does not check). *)
Theorem distinct_ids_are_kept (payload : Payload) (s : RagState) :
  NoDup (map id (documents s)) ->
  (eventType payload = "INSERT" ->
   ~ In (id (new payload)) (map id (documents s))) ->
  NoDup (map id (documents (onDocumentsChange payload s))).
Proof.
  intros Hnd Hfresh. unfold onDocumentsChange.
  destruct (eventType payload =? "INSERT") eqn:Ei.
  - apply String.eqb_eq in Ei. simpl. constructor; [now apply Hfresh | exact Hnd].
  - destruct (eventType payload =? "UPDATE").
    + simpl. now rewrite map_id_replace.
    + destruct (eventType payload =? "DELETE"); [| exact Hnd].
      simpl. now apply NoDup_map_filter.
Qed.

Lemma distinct_ids_are_kept_witness :
  NoDup (map id (documents
                   (onDocumentsChange
                      (mkPayload "INSERT" (row_of "3" "c") (row_of "" ""))
                      one_document))).
Proof.
  apply distinct_ids_are_kept.
  - simpl. constructor; [intros [] | constructor].
  - intros _. simpl. intros [H | []]. discriminate H.
Defined.

(** X14. Inserting a record whose id is new and then deleting it gives
    back the store as it was. *)
Theorem insert_then_delete_restores (inserted deleted : Payload) (s : RagState) :
  eventType inserted = "INSERT" ->
  eventType deleted = "DELETE" ->
  id (old deleted) = id (new inserted) ->
  ~ In (id (new inserted)) (map id (documents s)) ->
  onDocumentsChange deleted (onDocumentsChange inserted s) = s.
Proof.
  intros Hi Hd Hid Hfresh. unfold onDocumentsChange.
  rewrite Hi, Hd. simpl. rewrite Hid, String.eqb_refl. simpl.
  rewrite filter_absent_id by exact Hfresh.
  destruct s; reflexivity.
Qed.

Lemma insert_then_delete_restores_witness :
  onDocumentsChange (mkPayload "DELETE" (row_of "" "") (row_of "3" ""))
    (onDocumentsChange (mkPayload "INSERT" (row_of "3" "c") (row_of "" ""))
       one_document)
  = one_document.
Proof.
  apply insert_then_delete_restores; try reflexivity.
  simpl. intros [H | []]. discriminate H.
Defined.

(** X15. Delivering the same update or delete twice changes nothing more
    than delivering it once; only inserts accumulate. *)
Theorem repeated_event_changes_nothing (payload : Payload) (s : RagState) :
  eventType payload <> "INSERT" ->
  onDocumentsChange payload (onDocumentsChange payload s)
  = onDocumentsChange payload s.
Proof.
  intros Hi. apply String.eqb_neq in Hi. unfold onDocumentsChange. rewrite Hi.
  destruct (eventType payload =? "UPDATE").
  - unfold set_documents. simpl. f_equal. apply map_replace_twice.
  - destruct (eventType payload =? "DELETE"); [| reflexivity].
    unfold set_documents. simpl. f_equal. apply filter_twice.
Qed.

Lemma repeated_event_changes_nothing_witness :
  let update1 := mkPayload "UPDATE" (row_of "1" "edited") (row_of "1" "a") in
  onDocumentsChange update1 (onDocumentsChange update1 one_document)
  = onDocumentsChange update1 one_document.
Proof.
  cbv zeta. apply repeated_event_changes_nothing. simpl. discriminate.
Defined.

(** ** The store: fetches that succeed, and how settles compose *)

(** X16. A fetch that succeeds replaces the list with the rows returned
    (the empty list when [data] is null), whatever realtime events put into
    the list while the query was awaited, and clears [isLoading]; whatever
    its outcome, [fetchDocuments] leaves [regulations], [searchResults],
    [lastQuery] and [isSubscribed] as they were when it settled. *)
Theorem fetch_success_replaces_list (data : option (list Row))
    (o : QueryOutcome) (during : RagState -> RagState) (s : RagState) :
  let before := during (fetch_begin s) in
  let s' := fetchDocuments (Resolved data None) during s in
  let any := fetchDocuments o during s in
  documents s' = or_empty data /\
  isLoading s' = false /\
  error s' = error before /\
  regulations any = regulations before /\
  searchResults any = searchResults before /\
  lastQuery any = lastQuery before /\
  isSubscribed any = isSubscribed before.
Proof.
  cbv zeta. unfold fetchDocuments.
  repeat split; try reflexivity; destruct o as [d [e |] | e]; reflexivity.
Qed.

(** X17. The two fetches settle in either order with the same result,
    unless both fail: then [error] is the message of the one that settled
    last. *)
Theorem fetch_settles_commute (o1 o2 : QueryOutcome) (s : RagState) :
  (failure o1 = None \/ failure o2 = None ->
   fetchDocuments_settle o1 (fetchRegulations_settle o2 s) =
   fetchRegulations_settle o2 (fetchDocuments_settle o1 s)) /\
  (forall e1 e2,
      failure o1 = Some e1 -> failure o2 = Some e2 ->
      error (fetchDocuments_settle o1 (fetchRegulations_settle o2 s)) = Some (message e1) /\
      error (fetchRegulations_settle o2 (fetchDocuments_settle o1 s)) = Some (message e2)).
Proof.
  split.
  - intros Hone.
    destruct o1 as [d1 [e1 |] | e1], o2 as [d2 [e2 |] | e2]; simpl in Hone;
      try reflexivity; destruct Hone; discriminate.
  - intros e1 e2 H1 H2.
    destruct o1 as [d1 [x1 |] | x1], o2 as [d2 [x2 |] | x2]; simpl in H1, H2;
      try discriminate; injection H1 as ->; injection H2 as ->; split; reflexivity.
Qed.

Lemma fetch_settles_commute_witness :
  let failed := Resolved None (Some (mkError "timeout")) in
  let loaded := Resolved (Some [row_of "9" "r"]) None in
  fetchDocuments_settle failed (fetchRegulations_settle loaded one_document) =
  fetchRegulations_settle loaded (fetchDocuments_settle failed one_document).
Proof.
  cbv zeta. apply fetch_settles_commute. right. reflexivity.
Defined.


(** ** The store: the life of a subscription *)

Section ChannelFacts.

Lemma unsubscribe_here (before after : list RealtimeChannel) (c : RealtimeChannel) :
  unsubscribe (List.length before) (before ++ c :: after) =
  (before ++ mkChannel (topic c) (table c) (callback c) false :: after)%list.
Proof.
  induction before as [| b rest IH]; simpl; [reflexivity | now rewrite IH].
Qed.

Lemma deliver_step_quiet (tbl : string) (payload : Payload)
    (chs : list RealtimeChannel) (s : RagState) :
  Forall (fun ch => joined ch = false) chs ->
  fold_left
    (fun acc ch =>
       if joined ch && (table ch =? tbl) then callback ch payload acc else acc)
    chs s = s.
Proof.
  intros Hquiet. revert s.
  induction Hquiet as [| ch rest Hch _ IH]; intros s; simpl; [reflexivity |].
  rewrite Hch. simpl. apply IH.
Qed.

Lemma deliver_quiet (w : World) (tbl : string) (payload : Payload) :
  quiet w -> deliver tbl payload w = w.
Proof.
  intros Hquiet. unfold deliver, act.
  rewrite (deliver_step_quiet _ _ _ _ Hquiet). destruct w; reflexivity.
Qed.

(** The world [subscribe] gives from an unsubscribed store. *)
Lemma subscribe_fresh (w : World) :
  isSubscribed (state w) = false ->
  fst (subscribe w) =
  {| state := set_isSubscribed true (state w);
     documentChannel := Some (List.length (channels w));
     regulationChannel := Some (S (List.length (channels w)));
     channels :=
       (channels w ++
        [mkChannel "documents-changes" "documents" onDocumentsChange true;
         mkChannel "regulations-changes" "regulations" onRegulationsChange true])%list |}
  /\ snd (subscribe w) = cleanup.
Proof.
  intros Hoff. unfold subscribe. rewrite Hoff. simpl. split; [| reflexivity].
  f_equal.
  - rewrite length_app. simpl. f_equal. lia.
  - now rewrite <- app_assoc.
Qed.

Lemma deliver_after_subscribe (w : World) (tbl : string) (payload : Payload) :
  isSubscribed (state w) = false ->
  quiet w ->
  deliver tbl payload (fst (subscribe w)) =
  act (if tbl =? "documents" then onDocumentsChange payload
       else if tbl =? "regulations" then onRegulationsChange payload
       else fun s => s)
      (fst (subscribe w)).
Proof.
  intros Hoff Hquiet. destruct (subscribe_fresh w Hoff) as [-> _].
  unfold deliver, act. cbn [state channels documentChannel regulationChannel].
  f_equal.
  rewrite fold_left_app, (deliver_step_quiet _ _ _ _ Hquiet).
  cbn [fold_left joined table callback andb].
  rewrite (String.eqb_sym "documents" tbl), (String.eqb_sym "regulations" tbl).
  destruct (tbl =? "documents") eqn:Ed.
  - apply String.eqb_eq in Ed. subst tbl. reflexivity.
  - destruct (tbl =? "regulations"); reflexivity.
Qed.

Lemma cleanup_after_subscribe (w : World) :
  isSubscribed (state w) = false ->
  cleanup (fst (subscribe w)) =
  {| state := set_isSubscribed false (set_isSubscribed true (state w));
     documentChannel := None;
     regulationChannel := None;
     channels :=
       (channels w ++
        [mkChannel "documents-changes" "documents" onDocumentsChange false;
         mkChannel "regulations-changes" "regulations" onRegulationsChange false])%list |}.
Proof.
  intros Hoff. destruct (subscribe_fresh w Hoff) as [-> _].
  unfold cleanup.
  cbn [state channels documentChannel regulationChannel optional_unsubscribe].
  f_equal.
  rewrite unsubscribe_here. cbn [topic table callback].
  pose proof (unsubscribe_here
                (channels w ++
                 [mkChannel "documents-changes" "documents" onDocumentsChange false])
                []
                (mkChannel "regulations-changes" "regulations" onRegulationsChange true))
    as Hsecond.
  rewrite length_app, <- !app_assoc in Hsecond. simpl in Hsecond.
  rewrite Nat.add_1_r in Hsecond. exact Hsecond.
Qed.

Lemma quiet_after_cleanup (w : World) :
  isSubscribed (state w) = false -> quiet w ->
  quiet (cleanup (fst (subscribe w))) /\
  isSubscribed (state (cleanup (fst (subscribe w)))) = false.
Proof.
  intros Hoff Hquiet. rewrite cleanup_after_subscribe by exact Hoff.
  split; [| reflexivity].
  unfold quiet. simpl. apply Forall_app. split; [exact Hquiet |].
  repeat constructor.
Qed.

End ChannelFacts.

(** X19. After [subscribe] on an unsubscribed store whose client has no
    live channel, a change of the documents table reaches the store through
    the documents callback once, a change of the regulations table through
    the regulations callback once, and a change of any other table not at
    all. *)
Theorem events_are_routed_by_table (w : World) (tbl : string) (payload : Payload) :
  isSubscribed (state w) = false ->
  quiet w ->
  let subscribed := fst (subscribe w) in
  deliver tbl payload subscribed =
  act (if tbl =? "documents" then onDocumentsChange payload
       else if tbl =? "regulations" then onRegulationsChange payload
       else fun s => s)
      subscribed /\
  channels (deliver tbl payload subscribed) = channels subscribed /\
  isSubscribed (state (deliver tbl payload subscribed)) = true.
Proof.
  intros Hoff Hquiet. cbv zeta.
  rewrite (deliver_after_subscribe w tbl payload Hoff Hquiet).
  split; [reflexivity |]. split; [reflexivity |].
  destruct (subscribe_fresh w Hoff) as [-> _]. unfold act. cbn [state].
  destruct (tbl =? "documents"); [| destruct (tbl =? "regulations")].
  - rewrite onDocumentsChange_frame. reflexivity.
  - unfold onRegulationsChange.
    destruct (eventType payload =? "INSERT"); [reflexivity |].
    destruct (eventType payload =? "UPDATE"); [reflexivity |].
    destruct (eventType payload =? "DELETE"); reflexivity.
  - reflexivity.
Qed.

Lemma events_are_routed_by_table_witness :
  let insert3 := mkPayload "INSERT" (row_of "3" "c") (row_of "" "") in
  let w1 := fst (subscribe initialWorld) in
  regulations (state (deliver "regulations" insert3 w1)) = [row_of "3" "c"] /\
  documents (state (deliver "regulations" insert3 w1)) = [] /\
  deliver "materials" insert3 w1 = w1.
Proof.
  cbv zeta.
  assert (Hquiet : quiet initialWorld) by constructor.
  destruct (events_are_routed_by_table initialWorld "regulations"
              (mkPayload "INSERT" (row_of "3" "c") (row_of "" ""))
              eq_refl Hquiet) as (Hregs & _).
  destruct (events_are_routed_by_table initialWorld "materials"
              (mkPayload "INSERT" (row_of "3" "c") (row_of "" ""))
              eq_refl Hquiet) as (Hother & _).
  cbv zeta in Hregs, Hother. rewrite Hregs, Hother.
  repeat split; reflexivity.
Defined.

(** X20. The teardown [subscribe] returns can be called any number of
    times: a second call changes nothing.  After it the store is
    unsubscribed, both channel references are cleared, the two channels are
    left, and no change is delivered any more. *)
Theorem teardown_is_idempotent (w : World) (tbl : string) (payload : Payload) :
  isSubscribed (state w) = false ->
  quiet w ->
  let teardown := snd (subscribe w) in
  let after := teardown (fst (subscribe w)) in
  teardown after = after /\
  isSubscribed (state after) = false /\
  documentChannel after = None /\
  regulationChannel after = None /\
  quiet after /\
  List.length (channels after) = 2 + List.length (channels w) /\
  deliver tbl payload after = after.
Proof.
  intros Hoff Hquiet. cbv zeta.
  destruct (subscribe_fresh w Hoff) as [_ ->].
  destruct (quiet_after_cleanup w Hoff Hquiet) as [Hq Hs].
  rewrite cleanup_after_subscribe in * by exact Hoff.
  split; [reflexivity |].
  split; [reflexivity |].
  split; [reflexivity |].
  split; [reflexivity |].
  split; [exact Hq |].
  split; [simpl; rewrite length_app; simpl; lia |].
  unfold deliver, act. simpl. f_equal.
  apply deliver_step_quiet. exact Hq.
Qed.

Lemma teardown_is_idempotent_witness :
  let teardown := snd (subscribe initialWorld) in
  let after := teardown (fst (subscribe initialWorld)) in
  teardown after = after /\ isSubscribed (state after) = false.
Proof.
  cbv zeta.
  assert (Hquiet : quiet initialWorld) by constructor.
  destruct (teardown_is_idempotent initialWorld "documents"
              (mkPayload "INSERT" (row_of "3" "c") (row_of "" ""))
              eq_refl Hquiet) as (Hidem & Hoff & _).
  split; [exact Hidem | exact Hoff].
Defined.

(** X21. Subscribing again after a teardown works: a new pair of channels
    is created, the store is subscribed, and a change is delivered once (the
    channels left earlier stay silent). *)
Theorem resubscribe_after_teardown (w : World) (payload : Payload) :
  isSubscribed (state w) = false ->
  quiet w ->
  let again := fst (subscribe (cleanup (fst (subscribe w)))) in
  isSubscribed (state again) = true /\
  List.length (channels again) = 4 + List.length (channels w) /\
  deliver "documents" payload again = act (onDocumentsChange payload) again.
Proof.
  intros Hoff Hquiet. cbv zeta.
  destruct (quiet_after_cleanup w Hoff Hquiet) as [Hq Hs].
  split; [apply subscribe_sets_isSubscribed |].
  split.
  - destruct (subscribe_fresh _ Hs) as [-> _]. cbn [channels].
    rewrite cleanup_after_subscribe by exact Hoff. cbn [channels].
    rewrite !length_app. simpl. lia.
  - now rewrite (deliver_after_subscribe _ "documents" payload Hs Hq).
Qed.

Lemma resubscribe_after_teardown_witness :
  let insert3 := mkPayload "INSERT" (row_of "3" "c") (row_of "" "") in
  let again := fst (subscribe (cleanup (fst (subscribe initialWorld)))) in
  List.length (channels again) = 4 /\
  documents (state (deliver "documents" insert3 again)) = [row_of "3" "c"].
Proof.
  cbv zeta.
  assert (Hquiet : quiet initialWorld) by constructor.
  destruct (resubscribe_after_teardown initialWorld
              (mkPayload "INSERT" (row_of "3" "c") (row_of "" ""))
              eq_refl Hquiet) as (_ & Hlen & Hdeliver).
  split; [exact Hlen |]. rewrite Hdeliver. reflexivity.
Defined.

(** ** The hook: mounting, settling, unmounting *)

Section HookFacts.

Lemma useRag_effect_fresh (w : World) :
  isSubscribed (state w) = false ->
  fst (Hook.useRag_effect w) =
  {| state := fetch_begin (fetch_begin (set_isSubscribed true (state w)));
     documentChannel := Some (List.length (channels w));
     regulationChannel := Some (S (List.length (channels w)));
     channels :=
       (channels w ++
        [mkChannel "documents-changes" "documents" onDocumentsChange true;
         mkChannel "regulations-changes" "regulations" onRegulationsChange true])%list |}
  /\ (forall x, snd (Hook.useRag_effect w) x = cleanup x).
Proof.
  intros Hoff. unfold Hook.useRag_effect. cbn [fst snd].
  destruct (subscribe_fresh w Hoff) as [-> ->]. split; reflexivity.
Qed.

Lemma useRag_effect_subscribed (w : World) :
  isSubscribed (state w) = true ->
  fst (Hook.useRag_effect w) = act fetch_begin (act fetch_begin w) /\
  (forall x, snd (Hook.useRag_effect w) x = x).
Proof.
  intros Hon. unfold Hook.useRag_effect, subscribe. rewrite Hon.
  split; reflexivity.
Qed.

(** The channels a cleanup leaves depend on the channel references and the
    client's channels only. *)
Lemma cleanup_channels (w1 w2 : World) :
  documentChannel w1 = documentChannel w2 ->
  regulationChannel w1 = regulationChannel w2 ->
  channels w1 = channels w2 ->
  channels (cleanup w1) = channels (cleanup w2).
Proof.
  intros Hd Hr Hc. unfold cleanup. cbn [channels]. now rewrite Hd, Hr, Hc.
Qed.

End HookFacts.

(** X22. A component using [useRag] on an unsubscribed store: mounting
    subscribes and shows the store as loading without touching the lists;
    when both queries succeed, in either order, the store holds both lists,
    is not loading and has no error; unmounting then ends the subscription
    and keeps the lists. *)
Theorem useRag_life_cycle (w : World) (docs regs : option (list Row)) :
  isSubscribed (state w) = false ->
  quiet w ->
  let mounted := fst (Hook.useRag_effect w) in
  let unmount := snd (Hook.useRag_effect w) in
  let settled :=
    act (fetchRegulations_settle (Resolved regs None))
        (act (fetchDocuments_settle (Resolved docs None)) mounted) in
  let unmounted := unmount settled in
  (isSubscribed (state mounted) = true /\
   isLoading (state mounted) = true /\
   error (state mounted) = None /\
   documents (state mounted) = documents (state w) /\
   regulations (state mounted) = regulations (state w)) /\
  (documents (state settled) = or_empty docs /\
   regulations (state settled) = or_empty regs /\
   isLoading (state settled) = false /\
   error (state settled) = None /\
   isSubscribed (state settled) = true /\
   settled =
   act (fetchDocuments_settle (Resolved docs None))
       (act (fetchRegulations_settle (Resolved regs None)) mounted)) /\
  (isSubscribed (state unmounted) = false /\
   quiet unmounted /\
   documents (state unmounted) = or_empty docs /\
   regulations (state unmounted) = or_empty regs).
Proof.
  intros Hoff Hquiet. cbv zeta.
  destruct (useRag_effect_fresh w Hoff) as [-> ->].
  split; [repeat split; reflexivity |].
  split; [repeat split; reflexivity |].
  split; [reflexivity |].
  split; [| split; reflexivity].
  unfold quiet.
  erewrite cleanup_channels
    with (w2 := fst (subscribe w)); try (destruct (subscribe_fresh w Hoff) as [-> _]; reflexivity).
  apply quiet_after_cleanup; assumption.
Qed.

Lemma useRag_life_cycle_witness :
  let mounted := fst (Hook.useRag_effect initialWorld) in
  let settled :=
    act (fetchRegulations_settle (Resolved (Some [row_of "9" "r"]) None))
        (act (fetchDocuments_settle (Resolved None None)) mounted) in
  isLoading (state mounted) = true /\
  documents (state settled) = [] /\
  regulations (state settled) = [row_of "9" "r"] /\
  isSubscribed (state (snd (Hook.useRag_effect initialWorld) settled)) = false.
Proof.
  cbv zeta.
  assert (Hquiet : quiet initialWorld) by constructor.
  destruct (useRag_life_cycle initialWorld None (Some [row_of "9" "r"]) eq_refl Hquiet)
    as ((_ & Hload & _) & (Hdocs & Hregs & _) & (Hoff & _)).
  repeat split; assumption.
Defined.

(** X23. When a second component mounts [useRag] while a first one is
    mounted, no channel is created for it and its cleanup does nothing; the
    cleanup of the first ends the subscription for both: the store is
    unsubscribed and no change is delivered any more. *)
Theorem second_hook_shares_the_subscription (w : World) (tbl : string)
    (payload : Payload) :
  isSubscribed (state w) = false ->
  quiet w ->
  let w1 := fst (Hook.useRag_effect w) in
  let first_unmount := snd (Hook.useRag_effect w) in
  let w2 := fst (Hook.useRag_effect w1) in
  let second_unmount := snd (Hook.useRag_effect w1) in
  channels w2 = channels w1 /\
  (forall x, second_unmount x = x) /\
  isSubscribed (state (second_unmount w2)) = true /\
  isSubscribed (state (first_unmount w2)) = false /\
  deliver tbl payload (first_unmount w2) = first_unmount w2.
Proof.
  intros Hoff Hquiet. cbv zeta.
  destruct (useRag_effect_fresh w Hoff) as [Hw1 Hun].
  assert (Hon : isSubscribed (state (fst (Hook.useRag_effect w))) = true)
    by (rewrite Hw1; reflexivity).
  destruct (useRag_effect_subscribed _ Hon) as [Hw2 Hid].
  rewrite Hw2, !Hun.
  split; [reflexivity |].
  split; [exact Hid |].
  split; [rewrite Hid; exact Hon |].
  split; [reflexivity |].
  assert (Hq : quiet (cleanup (act fetch_begin
                                 (act fetch_begin (fst (Hook.useRag_effect w)))))).
  { unfold quiet.
    rewrite (cleanup_channels _ (fst (subscribe w)));
      try (rewrite Hw1; destruct (subscribe_fresh w Hoff) as [-> _]; reflexivity).
    apply quiet_after_cleanup; assumption. }
  now apply deliver_quiet.
Qed.

Lemma second_hook_shares_the_subscription_witness :
  let w1 := fst (Hook.useRag_effect initialWorld) in
  let w2 := fst (Hook.useRag_effect w1) in
  List.length (channels w2) = 2 /\
  isSubscribed (state (snd (Hook.useRag_effect initialWorld) w2)) = false.
Proof.
  cbv zeta.
  assert (Hquiet : quiet initialWorld) by constructor.
  destruct (second_hook_shares_the_subscription initialWorld "documents"
              (mkPayload "INSERT" (row_of "3" "c") (row_of "" ""))
              eq_refl Hquiet) as (Hch & _ & _ & Hoff & _).
  split; [rewrite Hch; reflexivity | exact Hoff].
Defined.

(** ** The search route *)

Section SearchRouteFacts.

(** A value one property of which can be read lets every property be
    read. *)
Lemma get_total (b x : JsVal) (k k' : string) :
  get b k = Normal x -> exists x', get b k' = Normal x'.
Proof.
  destruct b; simpl; intros H; try discriminate; eexists; reflexivity.
Qed.

Lemma destructure_total (expr : string) (b x : JsVal) (k k' : string) :
  get b k = Normal x -> exists x', destructure expr b k' = Normal x'.
Proof.
  destruct b; simpl; intros H; try discriminate; eexists; reflexivity.
Qed.






End SearchRouteFacts.


(** X25. A request whose [query] is missing, empty or not a string is
    answered 400 with the missing-query message, whatever the embedding
    server and the database would do: neither is consulted. *)
Theorem search_route_rejects_bad_query (b query : JsVal)
    (ollama : string -> SearchRoute.OllamaReply)
    (rpc : JsVal -> Completion SearchRoute.RpcResult) :
  get b "query" = Normal query ->
  truthy query = false \/ typeof query <> "string" ->
  SearchRoute.POST (Normal b) ollama rpc = SearchRoute.missing_query /\
  status SearchRoute.missing_query = 400%Z.
Proof.
  intros Hquery Hbad. split; [| reflexivity].
  unfold SearchRoute.POST. cbn [bind].
  rewrite (destructure_get "body" _ _ _ Hquery). cbn [bind].
  destruct (destructure_total "body" b query "query" "match_count" Hquery) as [mc ->].
  destruct (destructure_total "body" b query "query" "match_threshold" Hquery) as [mt ->].
  destruct (destructure_total "body" b query "query" "doc_type" Hquery) as [dt ->].
  cbn [bind].
  assert (Hcond : negb (truthy query) || negb (typeof query =? "string") = true).
  { destruct Hbad as [-> | Hty]; [reflexivity |].
    apply String.eqb_neq in Hty. rewrite Hty. apply orb_true_r. }
  now rewrite Hcond.
Qed.

Lemma search_route_rejects_bad_query_witness :
  SearchRoute.POST (Normal (VObj [("query", VNum 42); ("match_count", VNum 3)]))
    ollama_answers rpc_one_hit
  = SearchRoute.missing_query.
Proof.
  apply (search_route_rejects_bad_query _ (VNum 42)).
  - reflexivity.
  - right. discriminate.
Defined.

(** X26. The [limit] the store sends never reaches the database: for the
    store's request the route calls the database function with
    [match_count] 5, [match_threshold] 0 and no type filter, so the answer
    is the same for every [limit]. *)
Theorem store_limit_is_ignored (query : string) (limit1 limit2 : option Z)
    (ollama : string -> SearchRoute.OllamaReply)
    (rpc rpc' : JsVal -> Completion SearchRoute.RpcResult) :
  (forall params,
      lookup "match_count" params = VNum 5 ->
      lookup "match_threshold" params = VNum 0 ->
      lookup "filter_doc_type" params = VUndefined ->
      rpc (VObj params) = rpc' (VObj params)) ->
  SearchRoute.POST (Normal (search_request query limit1)) ollama rpc =
  SearchRoute.POST (Normal (search_request query limit2)) ollama rpc'.
Proof.
  intros Hsame. unfold SearchRoute.POST, search_request.
  cbn [bind destructure get lookup String.eqb Ascii.eqb Bool.eqb
       SearchRoute.with_default truthy typeof negb orb String_].
  destruct (negb (query =? "")); cbn [negb orb]; [| reflexivity].
  destruct (SearchRoute.generateEmbedding ollama query) as [embedding | err];
    cbn [bind]; [| reflexivity].
  destruct (SearchRoute.join_comma embedding) as [joined | err];
    cbn [bind]; [| reflexivity].
  rewrite (Hsame [("query_embedding", VStr ("[" ++ joined ++ "]"));
                  ("match_threshold", VNum 0); ("match_count", VNum 5)])
    by reflexivity.
  reflexivity.
Qed.

Lemma store_limit_is_ignored_witness :
  SearchRoute.POST (Normal (search_request "grounding" (Some 1%Z)))
    ollama_answers rpc_one_hit =
  SearchRoute.POST (Normal (search_request "grounding" (Some 50%Z)))
    ollama_answers rpc_one_hit.
Proof.
  apply store_limit_is_ignored. reflexivity.
Defined.

(** ** The update route *)

(** X27. An update request without a truthy [id] or [content] is answered
    400 with the missing-parameters message, whatever the embedding server
    and the database would do. *)
Theorem update_route_rejects_missing_parameters (b id content : JsVal)
    (ollama : JsVal -> SearchRoute.OllamaReply)
    (update : JsVal -> JsVal -> Completion SearchRoute.RpcResult) :
  get b "id" = Normal id ->
  get b "content" = Normal content ->
  truthy id = false \/ truthy content = false ->
  UpdateRoute.POST (Normal b) ollama update = UpdateRoute.missing_parameters /\
  status UpdateRoute.missing_parameters = 400%Z.
Proof.
  intros Hid Hcontent Hmissing. split; [| reflexivity].
  unfold UpdateRoute.POST. cbn [bind].
  rewrite (destructure_get "body" _ _ _ Hid), (destructure_get "body" _ _ _ Hcontent).
  cbn [bind].
  destruct (destructure_total "body" b id "id" "regenerate_embedding" Hid) as [re ->].
  cbn [bind].
  destruct Hmissing as [-> | ->]; [reflexivity |].
  now rewrite orb_true_r.
Qed.

Lemma update_route_rejects_missing_parameters_witness :
  UpdateRoute.POST (Normal (VObj [("id", VStr "r1"); ("content", VStr "")]))
    ollama_down update_stored
  = UpdateRoute.missing_parameters.
Proof.
  apply (update_route_rejects_missing_parameters _ (VStr "r1") (VStr ""));
    try reflexivity.
  now right.
Defined.

(** X28. With [regenerate_embedding] given and falsy, the update route
    does not consult the embedding server: it writes [{ content }] alone
    for the id and answers from the database's outcome, echoing the flag in
    [embedding_regenerated]. *)
Theorem update_without_regeneration (b id content re : JsVal)
    (ollama : JsVal -> SearchRoute.OllamaReply)
    (update : JsVal -> JsVal -> Completion SearchRoute.RpcResult) :
  get b "id" = Normal id ->
  get b "content" = Normal content ->
  get b "regenerate_embedding" = Normal re ->
  truthy id = true -> truthy content = true ->
  re <> VUndefined -> truthy re = false ->
  UpdateRoute.POST (Normal b) ollama update =
  after_database "更新失敗: "
    (fun res => VObj [("success", VBool true);
                      ("data", SearchRoute.data res);
                      ("embedding_regenerated", re)])
    (update (VObj [("content", content)]) id).
Proof.
  intros Hid Hcontent Hre Tid Tcontent Hgiven Hfalsy.
  unfold UpdateRoute.POST. cbn [bind].
  rewrite (destructure_get "body" _ _ _ Hid), (destructure_get "body" _ _ _ Hcontent),
    (destructure_get "body" _ _ _ Hre).
  cbn [bind].
  rewrite Tid, Tcontent. cbn [negb orb].
  assert (Hdefault : SearchRoute.with_default re (VBool true) = re)
    by (destruct re; try reflexivity; congruence).
  rewrite Hdefault, Hfalsy. cbn [bind]. unfold after_database.
  destruct (update (VObj [("content", content)]) id) as [res | err];
    cbn [bind]; [| reflexivity].
  destruct (SearchRoute.error res); reflexivity.
Qed.

Lemma update_without_regeneration_witness :
  UpdateRoute.POST (Normal update_without_embedding) ollama_down update_stored =
  NextResponse_json
    (VObj [("success", VBool true);
           ("data", VObj [("id", VStr "r1"); ("content", VStr "new text")]);
           ("embedding_regenerated", VBool false)])
    None.
Proof.
  rewrite (update_without_regeneration update_without_embedding
             (VStr "r1") (VStr "new text") (VBool false));
    try reflexivity.
  discriminate.
Defined.



(** A vector of numbers has a text. *)
Lemma numbers_join (vec : list JsVal) :
  (forall x, In x vec -> typeof x = "number") ->
  exists joined, String_ (VArr vec) = Normal joined.
Proof.
  intros Hnumbers. cbn [String_].
  destruct (sequence_map_printable
              (fun x => match x with
                        | VUndefined | VNull => Normal ""
                        | _ => String_ x
                        end) vec) as [pieces ->].
  - intros x Hx. specialize (Hnumbers x Hx).
    destruct x as [| | [|] | n | t | items | fields]; try discriminate Hnumbers.
    eexists. reflexivity.
  - eexists. reflexivity.
Qed.

(** X30. When the embedding server answers with a non-empty [embeddings]
    array whose first element is a vector, and the database reports no
    error, the search route answers 200 with the database's rows (an empty
    array when it returned none), the query, and the length of that first
    vector as [embedding_dimension]; an [embedding] property of the answer
    is not looked at.  This is so whenever the vector can be joined into a
    text, as every vector of numbers can; should it hold a value that
    cannot be converted to text, joining throws and the answer is 500 with
    that error's message. *)
Theorem search_route_success (b result d : JsVal) (q : string)
    (vec others : list JsVal)
    (ollama : string -> SearchRoute.OllamaReply)
    (rpc : JsVal -> Completion SearchRoute.RpcResult) :
  get b "query" = Normal (VStr q) ->
  q <> "" ->
  ollama q = SearchRoute.Answered (Normal result) ->
  get result "embeddings" = Normal (VArr (VArr vec :: others)) ->
  (forall params, rpc params = Normal (SearchRoute.mkRpc d None)) ->
  let answer := SearchRoute.POST (Normal b) ollama rpc in
  let found :=
    NextResponse_json
      (VObj [("success", VBool true);
             ("data", or_else d (VArr []));
             ("query", VStr q);
             ("embedding_dimension", VNum (Z.of_nat (List.length vec)))])
      None in
  answer =
  match String_ (VArr vec) with
  | Normal _ => found
  | Throw err =>
      NextResponse_json (VObj [("error", VStr (message err))]) (Some 500%Z)
  end /\
  ((forall x, In x vec -> typeof x = "number") -> answer = found).
Proof.
  intros Hquery Hq Hollama Hemb Hrpc. cbv zeta.
  enough (Hanswer :
    SearchRoute.POST (Normal b) ollama rpc =
    match String_ (VArr vec) with
    | Normal _ =>
        NextResponse_json
          (VObj [("success", VBool true);
                 ("data", or_else d (VArr []));
                 ("query", VStr q);
                 ("embedding_dimension", VNum (Z.of_nat (List.length vec)))])
          None
    | Throw err =>
        NextResponse_json (VObj [("error", VStr (message err))]) (Some 500%Z)
    end).
  { split; [exact Hanswer |].
    intros Hnumbers. rewrite Hanswer.
    destruct (numbers_join vec Hnumbers) as [joined ->]. reflexivity. }
  remember (String_ (VArr vec)) as printed eqn:Hprinted.
  unfold SearchRoute.POST. cbn [bind].
  rewrite (destructure_get "body" _ _ _ Hquery). cbn [bind].
  destruct (destructure_total "body" b _ "query" "match_count" Hquery) as [mc ->].
  destruct (destructure_total "body" b _ "query" "match_threshold" Hquery) as [mt ->].
  destruct (destructure_total "body" b _ "query" "doc_type" Hquery) as [dt ->].
  cbn [bind truthy typeof String_].
  apply String.eqb_neq in Hq. rewrite Hq. cbn [negb orb String.eqb Ascii.eqb Bool.eqb].
  unfold SearchRoute.generateEmbedding. rewrite Hollama. cbn [bind].
  rewrite Hemb. cbn [bind truthy get String.eqb Ascii.eqb Bool.eqb].
  assert (Hpos : SearchRoute.positive
                   (VNum (Z.of_nat (List.length (VArr vec :: others)))) = Normal true).
  { reflexivity. }
  rewrite Hpos.
  change (lookup "0" (indexed 0 (VArr vec :: others))) with (VArr vec).
  cbn [bind SearchRoute.join_comma]. rewrite <- Hprinted.
  destruct printed as [joined | err]; cbn [bind]; [| reflexivity].
  rewrite Hrpc. cbn [bind SearchRoute.error SearchRoute.data get String.eqb Ascii.eqb Bool.eqb].
  reflexivity.
Qed.

Lemma search_route_success_witness :
  status (SearchRoute.POST (Normal (search_request "grounding" None))
            ollama_answers rpc_one_hit) = 200%Z /\
  (parsed <- json (SearchRoute.POST (Normal (search_request "grounding" None))
                     ollama_answers rpc_one_hit);;
   get parsed "embedding_dimension") = Normal (VNum 3).
Proof.
  pose proof (search_route_success (search_request "grounding" None)
                (VObj [("embeddings", VArr [VArr [VNum 1; VNum 2; VNum 3]])])
                (VArr [one_hit]) "grounding" [VNum 1; VNum 2; VNum 3] []
                ollama_answers rpc_one_hit eq_refl
                ltac:(discriminate) eq_refl eq_refl (fun _ => eq_refl)) as Hsuccess.
  cbv zeta in Hsuccess. destruct Hsuccess as [_ Hnumbers].
  rewrite Hnumbers.
  - split; reflexivity.
  - intros x [<- | [<- | [<- | []]]]; reflexivity.
Defined.
